(** * FairAi: the fairness evaluation engine

    A shallow embedding of the statistical core of
    [backend/bias/loan_approval.py] (classification mode: [bootstrap_ci],
    [MetricsEngine], [ReportGenerator], [MLFairnessEvaluator]) and of
    [backend/bias/face_bias_evaluator.py] (verification mode:
    [ResultsGenerator], [FaceBiasEvaluator.run_evaluation]).

    Conventions of the embedding.
    - A Python [float] is a [pyfloat]: either [NaN] or a finite rational.
      Comparisons on floats are exact on rationals; sums, differences,
      products and quotients are taken exactly.  The rounding of IEEE
      doubles is not modelled, so a value that the code computes within
      one rounding error of a flag bound (0.8 - 0.7 against 0.10) may
      fall on the other side of it here.
    - Python [int]s are [Z]; numpy 0/1 arrays are [list Z].
    - A [dict] keyed by strings is a [gmap string _].
    - Code that can raise returns an [outcome].
    - numpy's global random generator is an explicit state that the
      bootstrap threads through. *)

From Stdlib Require Import ZArith QArith Qround Qabs Lqa Lia.
From stdpp Require Import gmap strings list fin_maps sorting pretty.

Local Open Scope Z_scope.

(** ** Python values *)

Module Py.

(** Exceptions met in the modelled code: the two classes declared by
    [loan_approval.py] and the built-in ones its operations can raise. *)
Inductive exn : Set :=
| ValidationError
| ModelLoadingError
| ZeroDivisionError
| ValueError
| KeyError
| IndexError.

Inductive outcome (A : Type) : Type :=
| Returned (a : A)
| Raised (e : exn).
Arguments Returned {A} a.
Arguments Raised {A} e.

Definition bind {A B} (m : outcome A) (k : A → outcome B) : outcome B :=
  match m with
  | Returned a => k a
  | Raised e => Raised e
  end.

Definition returns {A} (m : outcome A) : Prop := ∃ a, m = Returned a.

(** A Python float: [NaN] or a finite value. *)
Inductive pyfloat : Type :=
| NaN
| Fin (q : Q).

Definition zero : pyfloat := Fin 0.

(** Equality of floats as numbers ([Qeq] on finite values). *)
Definition feq (a b : pyfloat) : Prop :=
  match a, b with
  | Fin x, Fin y => (x == y)%Q
  | NaN, NaN => True
  | _, _ => False
  end.

Definition is_fin (a : pyfloat) : Prop :=
  match a with Fin _ => True | NaN => False end.

(** [a > b], [a < b], [a >= b]: every comparison with NaN is [False]. *)
Definition gt (a b : pyfloat) : bool :=
  match a, b with
  | Fin x, Fin y => negb (Qle_bool x y)
  | _, _ => false
  end.

Definition lt (a b : pyfloat) : bool := gt b a.

Definition ge (a b : pyfloat) : bool :=
  match a, b with
  | Fin x, Fin y => Qle_bool y x
  | _, _ => false
  end.

Definition sub (a b : pyfloat) : pyfloat :=
  match a, b with
  | Fin x, Fin y => Fin (x - y)
  | _, _ => NaN
  end.

Definition add (a b : pyfloat) : pyfloat :=
  match a, b with
  | Fin x, Fin y => Fin (x + y)
  | _, _ => NaN
  end.

Definition mul (a b : pyfloat) : pyfloat :=
  match a, b with
  | Fin x, Fin y => Fin (x * y)
  | _, _ => NaN
  end.

(** [a / b] on floats raises [ZeroDivisionError] on a zero divisor. *)
Definition div (a b : pyfloat) : outcome pyfloat :=
  match a, b with
  | Fin x, Fin y =>
      if Qeq_bool y 0 then Raised ZeroDivisionError
      else Returned (Fin (x / y))
  | _, _ => Returned NaN
  end.

(** [a / b] on ints (true division). *)
Definition int_div (a b : Z) : outcome pyfloat :=
  if Z.eqb b 0 then Raised ZeroDivisionError
  else Returned (Fin (inject_Z a / inject_Z b)).

(** The built-in [max] and [min] of a list: the first element is the
    candidate and a later one replaces it when it compares strictly
    greater (smaller); an empty argument raises [ValueError]. *)
Definition max2 (best x : pyfloat) : pyfloat := if gt x best then x else best.
Definition min2 (best x : pyfloat) : pyfloat := if lt x best then x else best.

Definition max (l : list pyfloat) : outcome pyfloat :=
  match l with
  | [] => Raised ValueError
  | x :: l' => Returned (fold_left max2 l' x)
  end.

Definition min (l : list pyfloat) : outcome pyfloat :=
  match l with
  | [] => Raised ValueError
  | x :: l' => Returned (fold_left min2 l' x)
  end.

(** [sum] of an int array and [mean] of a 0/1 array; the mean of an empty
    array is NaN (numpy warns and returns nan). *)
Definition sum (l : list Z) : Z := foldr Z.add 0 l.

Definition mean (l : list Z) : pyfloat :=
  match l with
  | [] => NaN
  | _ => Fin (inject_Z (sum l) / inject_Z (Z.of_nat (length l)))
  end.

(** [(a == x) & (b == y)] on two arrays, as a 0/1 array. *)
Definition both_eq (a : list Z) (x : Z) (b : list Z) (y : Z) : list Z :=
  zip_with (λ p t, Z.b2z (Z.eqb p x && Z.eqb t y)) a b.

(** [a == b] on two arrays, as a 0/1 array. *)
Definition arr_eq (a b : list Z) : list Z :=
  zip_with (λ p t, Z.b2z (Z.eqb p t)) a b.

(** The order of [str] values, by which pandas sorts group keys. *)
Definition str_le (a b : string) : Prop := String.leb a b = true.

#[export] Instance str_le_dec a b : Decision (str_le a b).
Proof. unfold str_le. apply _. Defined.

End Py.

Notation "x ←! m ; k" := (Py.bind m (λ x, k))
  (at level 20, m at level 100, k at level 200, only parsing).

Infix "=f" := Py.feq (at level 70, no associativity).

(** ** External collaborators

    Library functions the engine calls but does not define: numpy's global
    random generator and percentile, scikit-learn's ROC-AUC, and the
    [:.3f] float formatting.  They are an interface here; the code is
    verified for every implementation of it. *)

Class External := {
  (** the state of numpy's global generator *)
  RandomState : Type;
  (** [np.random.choice(data, size=n, replace=True)] *)
  random_choice : RandomState → list Z → nat → list Z * RandomState;
  (** [np.percentile(stats, q)] *)
  percentile : list Py.pyfloat → Q → Py.outcome Py.pyfloat;
  (** [SKLEARN_AVAILABLE] and [roc_auc_score(y_true, y_prob)] *)
  SKLEARN_AVAILABLE : bool;
  roc_auc_score : list Z → list Py.pyfloat → Py.outcome Py.pyfloat;
  (** [f"{v:.3f}"] *)
  format_3f : Py.pyfloat → string;
}.

(** ** Classification mode: [loan_approval.py] *)

Module Loan.
Import Py.

(** One row of the scored table, restricted to the four columns the engine
    reads: the label column, the sensitive attribute (already as the string
    [str(group)]; [None] is a null cell), the prediction column and the
    probability column. *)
Record Row := {
  r_label : option Z;
  r_group : option string;
  r_pred : pyfloat;
  r_prob : pyfloat;
}.

Abbreviation DataFrame := (list Row).

(** The value of [results[str(group)]]. [approval_rate_ci = None] stands
    for the tuple [(None, None)]. *)
Record PerGroupMetrics := {
  count : Z;
  approval_rate : pyfloat;
  approval_rate_ci : option (pyfloat * pyfloat);
  accuracy : pyfloat;
  tpr : pyfloat;
  fpr : pyfloat;
  tnr : pyfloat;
  fnr : pyfloat;
  precision : pyfloat;
  recall : pyfloat;
  f1_score : pyfloat;
  auc : option pyfloat;
}.

(** The four local counters of [compute_group_metrics]. *)
Record ConfusionCounts := { TP : Z; FP : Z; TN : Z; FN : Z }.

Record MetricsEngine := {
  threshold : pyfloat;
  bootstrap_ci_enabled : bool;
}.

(** [MetricsEngine.__init__]: no check on the threshold. *)
Definition MetricsEngine_init (threshold : pyfloat) (bootstrap_ci_enabled : bool)
  : outcome MetricsEngine :=
  Returned {| threshold := threshold; bootstrap_ci_enabled := bootstrap_ci_enabled |}.

(** *** [df.groupby(group_col)] *)

(** The distinct non-null keys, sorted; rows with a null key belong to no
    group (pandas' default [dropna=True]). *)
Definition group_keys (df : DataFrame) : list string :=
  merge_sort str_le (remove_dups (omap r_group df)).

Definition in_group (g : string) (r : Row) : bool :=
  bool_decide (r_group r = Some g).

Definition groupby (df : DataFrame) : list (string * DataFrame) :=
  map (λ g, (g, filter (λ r, in_group g r = true) df)) (group_keys df).

(** *** The body of the loop of [compute_group_metrics] *)

Definition y_true_of (pos_label : Z) (sub : DataFrame) : list Z :=
  map (λ r, Z.b2z (bool_decide (r_label r = Some pos_label))) sub.

Definition y_prob_of (sub : DataFrame) : list pyfloat := map r_prob sub.

Definition y_pred_of (θ : pyfloat) (sub : DataFrame) : list Z :=
  map (λ r, Z.b2z (ge (r_pred r) θ)) sub.

Definition confusion (y_pred y_true : list Z) : ConfusionCounts :=
  {| TP := sum (both_eq y_pred 1 y_true 1);
     FP := sum (both_eq y_pred 1 y_true 0);
     TN := sum (both_eq y_pred 0 y_true 0);
     FN := sum (both_eq y_pred 0 y_true 1) |}.

(** [float(num / den) if den > 0 else 0.0] *)
Definition rate (num den : Z) : outcome pyfloat :=
  if 0 <? den then int_div num den else Returned zero.

(** [2 * (p * r) / (p + r) if (p + r) > 0 else 0.0] *)
Definition f1_of (p r : pyfloat) : outcome pyfloat :=
  if gt (add p r) zero then div (mul (Fin 2) (mul p r)) (add p r)
  else Returned zero.

Section Engine.
Context `{External}.

(** [bootstrap_ci]: the loop draws [n_bootstrap] samples from the global
    generator. *)
Fixpoint resample (data : list Z) (stat_fn : list Z → pyfloat) (n : nat)
    (n_bootstrap : nat) (stats : list pyfloat) (st : RandomState)
  : list pyfloat * RandomState :=
  match n_bootstrap with
  | O => (stats, st)
  | S k =>
      let '(sample, st') := random_choice st data n in
      resample data stat_fn n k (stats ++ [stat_fn sample]) st'
  end.

Definition bootstrap_ci (data : list Z) (stat_fn : list Z → pyfloat)
    (n_bootstrap : nat) (alpha : Q) (st : RandomState)
  : outcome (pyfloat * pyfloat) * RandomState :=
  if (length data =? 0)%nat then (Returned (NaN, NaN), st)
  else
    let '(stats, st') := resample data stat_fn (length data) n_bootstrap [] st in
    (lower ←! percentile stats (100 * (alpha / 2));
     upper ←! percentile stats (100 * (1 - alpha / 2));
     Returned (lower, upper), st').

(** The AUC cell: [None] unless scikit-learn is there and both classes
    occur; an exception of [roc_auc_score] is swallowed into [None]. *)
Definition auc_of (y_true : list Z) (y_prob : list pyfloat) : option pyfloat :=
  if SKLEARN_AVAILABLE && (1 <? length (remove_dups y_true))%nat then
    match roc_auc_score y_true y_prob with
    | Returned a => Some a
    | Raised _ => None
    end
  else None.

(** The bootstrap cell: [(None, None)] unless enabled and the group has
    rows; an exception of [bootstrap_ci] is swallowed into [(None, None)]. *)
Definition approval_ci_of (eng : MetricsEngine) (y_pred : list Z) (st : RandomState)
  : option (pyfloat * pyfloat) * RandomState :=
  if bootstrap_ci_enabled eng && (0 <? Z.of_nat (length y_pred)) then
    match bootstrap_ci y_pred mean 200 (5 # 100) st with
    | (Returned ci, st') => (Some ci, st')
    | (Raised _, st') => (None, st')
    end
  else (None, st).

(** Everything the loop body computes before the bootstrap; the interval
    cell is filled in by the loop. *)
Definition group_body (eng : MetricsEngine) (pos_label : Z) (sub : DataFrame)
  : outcome PerGroupMetrics :=
  let y_true := y_true_of pos_label sub in
  let y_prob := y_prob_of sub in
  let y_pred := y_pred_of (threshold eng) sub in
  let c := confusion y_pred y_true in
  let total := Z.of_nat (length sub) in
  let approval_rate := if 0 <? total then mean y_pred else NaN in
  let accuracy := if 0 <? total then mean (arr_eq y_pred y_true) else NaN in
  tpr ←! rate (TP c) (TP c + FN c);
  fpr ←! rate (FP c) (FP c + TN c);
  tnr ←! rate (TN c) (TN c + FP c);
  fnr ←! rate (FN c) (FN c + TP c);
  precision ←! rate (TP c) (TP c + FP c);
  let recall := tpr in
  f1 ←! f1_of precision recall;
  Returned {| count := total;
              approval_rate := approval_rate;
              approval_rate_ci := None;
              accuracy := accuracy;
              tpr := tpr; fpr := fpr; tnr := tnr; fnr := fnr;
              precision := precision; recall := recall;
              f1_score := f1;
              auc := auc_of y_true y_prob |}.

Definition set_ci (m : PerGroupMetrics) (ci : option (pyfloat * pyfloat))
  : PerGroupMetrics :=
  {| count := count m; approval_rate := approval_rate m;
     approval_rate_ci := ci; accuracy := accuracy m;
     tpr := tpr m; fpr := fpr m; tnr := tnr m; fnr := fnr m;
     precision := precision m; recall := recall m;
     f1_score := f1_score m; auc := auc m |}.

(** The loop [for group, sub in df.groupby(group_col)]: the dict [results]
    and the generator state are threaded through the iterations. *)
Fixpoint group_loop (eng : MetricsEngine) (pos_label : Z)
    (groups : list (string * DataFrame))
    (results : gmap string PerGroupMetrics) (st : RandomState)
  : outcome (gmap string PerGroupMetrics) * RandomState :=
  match groups with
  | [] => (Returned results, st)
  | (g, sub) :: rest =>
      match group_body eng pos_label sub with
      | Raised e => (Raised e, st)
      | Returned m =>
          let '(ci, st') :=
            approval_ci_of eng (y_pred_of (threshold eng) sub) st in
          group_loop eng pos_label rest (<[g := set_ci m ci]> results) st'
      end
  end.

Definition compute_group_metrics (eng : MetricsEngine) (df : DataFrame)
    (pos_label : Z) (st : RandomState)
  : outcome (gmap string PerGroupMetrics) * RandomState :=
  group_loop eng pos_label (groupby df) ∅ st.

(** [compute_fairness_metrics]. The lists follow the keys of the dict. *)
Definition compute_fairness_metrics (group_metrics : gmap string PerGroupMetrics)
  : outcome (gmap string pyfloat) :=
  if (size group_metrics <? 2)%nat then Returned ∅
  else
    let groups := (map_to_list group_metrics).*2 in
    let approval_rates := map approval_rate groups in
    let tprs := map tpr groups in
    let fprs := map fpr groups in
    max_ar ←! max approval_rates;
    min_ar ←! min approval_rates;
    let dp_diff := sub max_ar min_ar in
    dp_ratio ←! (if gt max_ar zero then div min_ar max_ar else Returned zero);
    max_tpr ←! max tprs;
    min_tpr ←! min tprs;
    let eo_diff := sub max_tpr min_tpr in
    let tpr_diff := sub max_tpr min_tpr in
    max_fpr ←! max fprs;
    min_fpr ←! min fprs;
    let fpr_diff := sub max_fpr min_fpr in
    let eq_odds_diff := max2 tpr_diff fpr_diff in
    Returned (<["demographic_parity_difference" := dp_diff]>
             (<["demographic_parity_ratio" := dp_ratio]>
             (<["equal_opportunity_difference" := eo_diff]>
             (<["equalized_odds_difference" := eq_odds_diff]>
             (<["disparate_impact" := dp_ratio]> ∅))))).

(** [d[key]] raises [KeyError] on a missing key; [d.get(key, dflt)] does not. *)
Definition getitem (d : gmap string pyfloat) (key : string) : outcome pyfloat :=
  match d !! key with
  | Some v => Returned v
  | None => Raised KeyError
  end.

Definition get (d : gmap string pyfloat) (key : string) (dflt : pyfloat) : pyfloat :=
  default dflt (d !! key).

(** One [if ...: flags.append(f"...")] of [identify_flags]. *)
Definition flag_rule (d : gmap string pyfloat) (key : string)
    (triggered : bool) (text : string) (bound : string)
    (flags : list string) : outcome (list string) :=
  if triggered then
    v ←! getitem d key;
    Returned (flags ++ [(text +:+ format_3f v +:+ bound)%string])
  else Returned flags.

Definition identify_flags (fairness_metrics : gmap string pyfloat)
  : outcome (list string) :=
  let d := fairness_metrics in
  flags ←! flag_rule d "disparate_impact"
             (lt (get d "disparate_impact" (Fin 1)) (Fin (8 # 10)))
             "Disparate impact ratio = " " < 0.8" [];
  flags ←! flag_rule d "demographic_parity_difference"
             (gt (get d "demographic_parity_difference" (Fin 0)) (Fin (10 # 100)))
             "Demographic parity difference = " " > 0.10" flags;
  flags ←! flag_rule d "equal_opportunity_difference"
             (gt (get d "equal_opportunity_difference" (Fin 0)) (Fin (10 # 100)))
             "Equal opportunity difference = " " > 0.10" flags;
  flag_rule d "equalized_odds_difference"
             (gt (get d "equalized_odds_difference" (Fin 0)) (Fin (10 # 100)))
             "Equalized odds difference = " " > 0.10" flags.

(** [ModelWrapper.predict]: [(probs >= threshold).astype(int)]. *)
Definition predict (probs : list pyfloat) (threshold : pyfloat) : list Z :=
  map (λ p, Z.b2z (ge p threshold)) probs.

(** [MLFairnessEvaluator.run_inference], given the scoring adapter's output
    [probabilities]: the columns 'probability' and 'prediction' are
    (over)written; pandas refuses a column of the wrong length. *)
Definition run_inference (θ : pyfloat) (df : DataFrame)
    (probabilities : list pyfloat) : outcome DataFrame :=
  if (length probabilities =? length df)%nat then
    Returned (zip_with (λ r pq,
                {| r_label := r_label r; r_group := r_group r;
                   r_pred := Fin (inject_Z pq.2); r_prob := pq.1 |})
              df (zip probabilities (predict probabilities θ)))
  else Raised ValueError.

(** [.astype(int)] on a float cell: truncation; NaN cannot be cast. *)
Definition astype_int (x : pyfloat) : outcome Z :=
  match x with
  | Fin q => Returned (if Qle_bool 0 q then Qfloor q else Qceiling q)
  | NaN => Raised ValueError
  end.

Fixpoint astype_int_all (l : list pyfloat) : outcome (list Z) :=
  match l with
  | [] => Returned []
  | x :: l' => z ←! astype_int x; zs ←! astype_int_all l'; Returned (z :: zs)
  end.

Record OverallMetrics := {
  total_records : Z;
  overall_approval_rate : pyfloat;
  overall_accuracy : pyfloat;
}.

Record Evaluation := {
  ev_overall : OverallMetrics;
  ev_group_metrics : gmap string PerGroupMetrics;
  ev_fairness_metrics : gmap string pyfloat;
  ev_flags : list string;
}.

(** [MLFairnessEvaluator.evaluate_fairness]. Both branches of the accuracy
    cell (scikit-learn's [accuracy_score] and the fallback) are the
    fraction of equal entries. *)
Definition evaluate_fairness (eng : MetricsEngine) (pos_label : Z)
    (df : DataFrame) (st : RandomState) : outcome Evaluation * RandomState :=
  match compute_group_metrics eng df pos_label st with
  | (Raised e, st') => (Raised e, st')
  | (Returned group_metrics, st') =>
      (let y_true := y_true_of pos_label df in
       y_pred ←! astype_int_all (map r_pred df);
       let overall :=
         {| total_records := Z.of_nat (length df);
            overall_approval_rate := mean y_pred;
            overall_accuracy := mean (arr_eq y_true y_pred) |} in
       fairness_metrics ←! compute_fairness_metrics group_metrics;
       flags ←! identify_flags fairness_metrics;
       Returned {| ev_overall := overall;
                   ev_group_metrics := group_metrics;
                   ev_fairness_metrics := fairness_metrics;
                   ev_flags := flags |}, st')
  end.

(** ['FAIL' if flags else 'PASS'], as in [generate_summary_json] and in
    [run_evaluation]. *)
Definition assessment_of (flags : list string) : string :=
  match flags with
  | [] => "PASS"
  | _ :: _ => "FAIL"
  end.

Record Summary := {
  sm_assessment : string;
  sm_overall : OverallMetrics;
  sm_group_summary : gmap string PerGroupMetrics;
  sm_fairness_metrics : gmap string pyfloat;
  sm_flags : list string;
}.

(** The dict that [generate_summary_json] dumps (without its timestamp). *)
Definition generate_summary_json (overall_metrics : OverallMetrics)
    (group_metrics : gmap string PerGroupMetrics)
    (fairness_metrics : gmap string pyfloat) (flags : list string) : Summary :=
  {| sm_assessment := assessment_of flags;
     sm_overall := overall_metrics;
     sm_group_summary := group_metrics;
     sm_fairness_metrics := fairness_metrics;
     sm_flags := flags |}.

(** What [run_evaluation] returns: the summary with status 'success', or
    the status 'error' when any step raised. *)
Inductive Report :=
| Success (summary : Summary) (summary_json : Summary)
| Error (e : exn).

(** [MLFairnessEvaluator.run_evaluation] from the loaded table and the
    scores of the model on; the engine is [MetricsEngine(self.threshold)],
    so the bootstrap is enabled.  [summary_json] is the dict that
    [generate_reports] dumps to summary.json.  File validation, loading and
    plotting are left out. *)
Definition run_evaluation (θ : pyfloat) (pos_label : Z) (df : DataFrame)
    (probabilities : list pyfloat) (st : RandomState) : Report * RandomState :=
  match MetricsEngine_init θ true with
  | Raised e => (Error e, st)
  | Returned eng =>
      match run_inference θ df probabilities with
      | Raised e => (Error e, st)
      | Returned df' =>
          match evaluate_fairness eng pos_label df' st with
          | (Raised e, st') => (Error e, st')
          | (Returned ev, st') =>
              (Success {| sm_assessment := assessment_of (ev_flags ev);
                          sm_overall := ev_overall ev;
                          sm_group_summary := ev_group_metrics ev;
                          sm_fairness_metrics := ev_fairness_metrics ev;
                          sm_flags := ev_flags ev |}
                       (generate_summary_json (ev_overall ev)
                          (ev_group_metrics ev) (ev_fairness_metrics ev)
                          (ev_flags ev)), st')
          end
      end
  end.

End Engine.
End Loan.

(** ** Verification mode: [face_bias_evaluator.py] *)

(** The collaborators of the face pipeline: the embedding model, the image
    kernels of OpenCV (which draw from numpy's global generator) and the
    cosine similarity.  [World] is the state they read and change. *)
Class FaceExternal := {
  World : Type;
  Image : Type;
  Embedding : Type;
  (** [self.extractor.get_embedding(img)]; the result may be [None] *)
  get_embedding : Image → World → Py.outcome (option Embedding) * World;
  (** [np.all(emb == 0)] *)
  all_zero : Embedding → bool;
  (** the kernel behind one of the names of [_AUG_CHOICES] *)
  augment_kernel : string → Image → World → Py.outcome Image * World;
  (** [cosine_similarity([a], [b])[0][0]]; scikit-learn raises on vectors
      of different lengths or with NaN or infinite entries *)
  cosine_similarity : Embedding → Embedding → Py.outcome Py.pyfloat;
}.

Module Face.
Import Py.

Definition _AUG_CHOICES : list string :=
  ["flip"; "rotation"; "brightness"; "blur"; "occlusion"; "noise"; "shift"].

(** One dict of [results["pairs"]]. *)
Record PairRow := {
  p_group : string;
  p_augmentation : string;
  p_label : Z;
  p_similarity : pyfloat;
  p_prediction : Z;
}.

(** [ResultsGenerator.add] *)
Definition add (pairs : list PairRow) (group aug : string) (label : Z)
    (sim threshold : pyfloat) : list PairRow :=
  pairs ++ [ {| p_group := group; p_augmentation := aug; p_label := label;
                p_similarity := sim;
                p_prediction := Z.b2z (ge sim threshold) |} ].

Record Metrics := { FMR : pyfloat; FNMR : pyfloat; accuracy : pyfloat }.

(** The three cells computed for the whole frame and for each group. *)
Definition metrics_of (g : list PairRow) : Metrics :=
  let label := map p_label g in
  let prediction := map p_prediction g in
  {| FMR := mean (both_eq label 0 prediction 1);
     FNMR := mean (both_eq label 1 prediction 0);
     accuracy := mean (arr_eq label prediction) |}.

(** [df.groupby(col).apply(f).to_dict()] *)
Definition groupby_apply (col : PairRow → string) (df : list PairRow)
  : gmap string Metrics :=
  list_to_map
    (map (λ k, (k, metrics_of (filter (λ r, col r = k) df)))
         (merge_sort str_le (remove_dups (map col df)))).

Record MetricsReport := {
  overall : Metrics;
  by_group : gmap string Metrics;
  by_augmentation : gmap string Metrics;
}.

(** [ResultsGenerator.compute_metrics]: a frame built from no pair has no
    column, and [df["label"]] raises. *)
Definition compute_metrics (pairs : list PairRow) : outcome MetricsReport :=
  match pairs with
  | [] => Raised KeyError
  | _ :: _ =>
      Returned {| overall := metrics_of pairs;
                  by_group := groupby_apply p_group pairs;
                  by_augmentation := groupby_apply p_augmentation pairs |}
  end.

Section Evaluator.
Context `{FaceExternal}.

(** [apply_augmentation]: 'original' and unknown names return the image. *)
Definition apply_augmentation (img : Image) (aug : string) (w : World)
  : outcome Image * World :=
  if bool_decide (aug = "original") then (Returned img, w)
  else if bool_decide (aug ∈ _AUG_CHOICES) then augment_kernel aug img w
  else (Returned img, w).

(** The loop [for aug in ["original"] + self.augmentations]; the third
    component is the exception that left the loop, if any.  Pairs added
    before it stay in [results]. *)
Fixpoint aug_loop (group : string) (img : Image) (orig_emb : Embedding)
    (threshold : pyfloat) (augs : list string) (pairs : list PairRow) (w : World)
  : list PairRow * World * option exn :=
  match augs with
  | [] => (pairs, w, None)
  | aug :: rest =>
      match apply_augmentation img aug w with
      | (Raised e, w1) => (pairs, w1, Some e)
      | (Returned aug_img, w1) =>
          match get_embedding aug_img w1 with
          | (Raised e, w2) => (pairs, w2, Some e)
          | (Returned None, w2) =>
              aug_loop group img orig_emb threshold rest pairs w2
          | (Returned (Some aug_emb), w2) =>
              if all_zero aug_emb then
                aug_loop group img orig_emb threshold rest pairs w2
              else
                match cosine_similarity orig_emb aug_emb with
                | Raised e => (pairs, w2, Some e)
                | Returned sim =>
                    aug_loop group img orig_emb threshold rest
                      (add pairs group aug 1 sim threshold) w2
                end
          end
      end
  end.

Record LoopState := {
  ls_pairs : list PairRow;
  ls_processed_images : Z;
  ls_world : World;
}.

(** The body of [for fname in image_files]; [file] is what [cv2.imread]
    returned. *)
Definition process_image (threshold : pyfloat) (augmentations : list string)
    (group : string) (s : LoopState) (file : option Image) : LoopState :=
  match file with
  | None => s
  | Some img =>
      match get_embedding img (ls_world s) with
      | (Raised _, w1) =>
          {| ls_pairs := ls_pairs s;
             ls_processed_images := ls_processed_images s; ls_world := w1 |}
      | (Returned None, w1) =>
          {| ls_pairs := ls_pairs s;
             ls_processed_images := ls_processed_images s; ls_world := w1 |}
      | (Returned (Some orig_emb), w1) =>
          if all_zero orig_emb then
            {| ls_pairs := ls_pairs s;
               ls_processed_images := ls_processed_images s; ls_world := w1 |}
          else
            match aug_loop group img orig_emb threshold
                    ("original" :: augmentations) (ls_pairs s) w1 with
            | (pairs, w2, None) =>
                {| ls_pairs := pairs;
                   ls_processed_images := ls_processed_images s + 1;
                   ls_world := w2 |}
            | (pairs, w2, Some _) =>
                {| ls_pairs := pairs;
                   ls_processed_images := ls_processed_images s;
                   ls_world := w2 |}
            end
      end
  end.

(** The dataset as the two directory listings give it. *)
Abbreviation Dataset := (list (string * list (option Image))).

Definition process_group (threshold : pyfloat) (augmentations : list string)
    (s : LoopState) (g : string * list (option Image)) : LoopState :=
  fold_left (process_image threshold augmentations g.1) g.2 s.

Definition collect_pairs (threshold : pyfloat) (augmentations : list string)
    (dataset : Dataset) (w : World) : LoopState :=
  fold_left (process_group threshold augmentations) dataset
    {| ls_pairs := []; ls_processed_images := 0; ls_world := w |}.

Record EvaluationResult := {
  res_accuracy : pyfloat;
  res_bias : pyfloat;
  detailed_metrics : MetricsReport;
}.

Definition fabs (x : pyfloat) : pyfloat :=
  match x with
  | Fin q => Fin (Qabs q)
  | NaN => NaN
  end.

(** [report.get('by_group', {}).get(g, {}).get('FMR', 0.0)] *)
Definition group_FMR (report : MetricsReport) (g : string) : pyfloat :=
  match by_group report !! g with
  | Some m => FMR m
  | None => zero
  end.

(** [FaceBiasEvaluator.run_evaluation] once the model is set up, on the
    listing of an existing dataset directory. *)
Definition run_evaluation (threshold : pyfloat) (augmentations : list string)
    (dataset : Dataset) (w : World) : outcome EvaluationResult * World :=
  match dataset with
  | [] => (Raised ValueError, w)
  | _ :: _ =>
      let s := collect_pairs threshold augmentations dataset w in
      if ls_processed_images s =? 0 then (Raised ValueError, ls_world s)
      else
        (report ←! compute_metrics (ls_pairs s);
         Returned {| res_accuracy := accuracy (overall report);
                     res_bias := fabs (sub (group_FMR report "male")
                                           (group_FMR report "female"));
                     detailed_metrics := report |},
         ls_world s)
  end.

End Evaluator.
End Face.

(** ** A reference implementation of the collaborators

    One executable implementation of [External] and of [FaceExternal], on
    which the engine can be run on concrete tables. *)

Module Reference.
Import Py.

(** A linear congruential generator implements the generator interface;
    it is not numpy's generator, and nothing is concluded from its draws
    but that the engine runs on them. *)
Definition lcg_next (s : Z) : Z := (1103515245 * s + 12345) mod 2147483648.

Fixpoint draw (st : Z) (data : list Z) (n : nat) : list Z * Z :=
  match n with
  | O => ([], st)
  | S k =>
      let x := nth (Z.to_nat ((st / 65536) mod Z.of_nat (length data))) data 0 in
      let '(xs, st') := draw (lcg_next st) data k in
      (x :: xs, st')
  end.

Definition fle (a b : pyfloat) : Prop := ge b a = true.

#[local] Instance fle_dec a b : Decision (fle a b).
Proof. unfold fle. apply _. Defined.

Definition is_nan (x : pyfloat) : bool :=
  match x with NaN => true | Fin _ => false end.

(** numpy's default (linear interpolation) percentile. *)
Definition linear_percentile (stats : list pyfloat) (q : Q) : outcome pyfloat :=
  if negb (Qle_bool 0 q && Qle_bool q 100) then Raised ValueError
  else if existsb is_nan stats then Returned NaN
  else
    match merge_sort fle stats with
    | [] => Returned NaN
    | x :: _ as sorted =>
        let h := (q / 100 * inject_Z (Z.of_nat (length sorted) - 1))%Q in
        let lo := Qfloor h in
        let a := nth (Z.to_nat lo) sorted x in
        let b := nth (Z.to_nat (lo + 1)) sorted a in
        Returned (add a (mul (Fin (h - inject_Z lo)) (sub b a)))
    end.

(** The rank definition of the ROC-AUC: the share of (positive, negative)
    pairs ranked in order, ties counting one half. *)
Definition pair_score (p n : pyfloat) : Q :=
  if gt p n then 1 else if gt n p then 0 else 1 # 2.

Definition rank_auc (y_true : list Z) (y_prob : list pyfloat) : outcome pyfloat :=
  let rows := zip y_true y_prob in
  let pos := map snd (filter (λ r, r.1 = 1) rows) in
  let neg := map snd (filter (λ r, r.1 ≠ 1) rows) in
  match pos, neg with
  | _ :: _, _ :: _ =>
      let total := foldr Qplus 0%Q
                     (p ← pos; n ← neg; [pair_score p n]) in
      Returned (Fin (total / inject_Z (Z.of_nat (length pos * length neg))))
  | _, _ => Raised ValueError
  end.

(** Rounding to the nearest integer, ties to even. *)
Definition round_half_even (q : Q) : Z :=
  let f := Qfloor q in
  let r := (q - inject_Z f)%Q in
  if Qle_bool r (1 # 2) then
    if Qle_bool (1 # 2) r then (if Z.even f then f else f + 1) else f
  else f + 1.

Definition pad3 (n : Z) : string :=
  if n <? 10 then "00" +:+ pretty n
  else if n <? 100 then "0" +:+ pretty n
  else pretty n.

Definition fmt_3f (x : pyfloat) : string :=
  match x with
  | NaN => "nan"
  | Fin q =>
      let m := round_half_even (q * 1000) in
      let body := pretty (Z.abs m / 1000) +:+ "." +:+ pad3 (Z.abs m mod 1000) in
      if Qle_bool 0 q then body else "-" +:+ body
  end.

#[export] Instance reference_external : External := {|
  RandomState := Z;
  random_choice := draw;
  percentile := linear_percentile;
  SKLEARN_AVAILABLE := true;
  roc_auc_score := rank_auc;
  format_3f := fmt_3f;
|}.

(** A toy face pipeline: an image is its pixel row, the model embeds it as
    a bias 1 followed by the pixels, the kernels permute or shift pixels
    without randomness, and the similarity of two embeddings of the same
    length is the share of positions they agree on. *)
Definition toy_kernel (name : string) (img : list Z) (w : unit)
  : outcome (list Z) * unit :=
  if bool_decide (name = "flip") then (Returned (reverse img), w)
  else (Returned (map (Z.add 1) img), w).

Definition toy_similarity (a b : list Z) : outcome pyfloat :=
  if (length a =? length b)%nat then Returned (mean (arr_eq a b))
  else Raised ValueError.

#[export] Instance toy_face : FaceExternal := {|
  World := unit;
  Image := list Z;
  Embedding := list Z;
  get_embedding := λ img w, (Returned (Some (1 :: img)), w);
  all_zero := forallb (Z.eqb 0);
  augment_kernel := toy_kernel;
  cosine_similarity := toy_similarity;
|}.

End Reference.

(** ** Notions used to state the properties *)

Module Spec.
Import Py Loan.

(** The counters of one partition at threshold [θ]. *)
Definition group_confusion (θ : pyfloat) (pos_label : Z) (sub : DataFrame)
  : ConfusionCounts :=
  confusion (y_pred_of θ sub) (y_true_of pos_label sub).

(** A counter summed over the groups the loop visits. *)
Definition total_over (f : ConfusionCounts → Z) (θ : pyfloat) (pos_label : Z)
    (groups : list (string * DataFrame)) : Z :=
  sum (map (λ gs, f (group_confusion θ pos_label gs.2)) groups).

(** The rows that carry a group tag. *)
Definition tagged (df : DataFrame) : DataFrame :=
  filter (λ r, is_Some (r_group r)) df.

(** The rows of group [g]. *)
Definition rows_of (g : string) (df : DataFrame) : DataFrame :=
  filter (λ r, in_group g r = true) df.

(** The row carries one of the tags [ks]. *)
Definition keyed (ks : list string) (r : Row) : bool :=
  match r_group r with
  | Some k => bool_decide (k ∈ ks)
  | None => false
  end.

(** A per-row weight summed over a table. *)
Definition wsum (w : Row → Z) (l : DataFrame) : Z := sum (map w l).

(** What one row adds to the counter of the rows predicted [x] whose
    true label is [y]. *)
Definition cell (θ : pyfloat) (pos_label : Z) (x y : Z) (r : Row) : Z :=
  Z.b2z (Z.eqb (Z.b2z (ge (r_pred r) θ)) x
         && Z.eqb (Z.b2z (bool_decide (r_label r = Some pos_label))) y).

(** The usual count ratio, and 0.0 on a zero denominator. *)
Definition ratio (num den : Z) : pyfloat :=
  if decide (den = 0) then Fin 0 else Fin (inject_Z num / inject_Z den).

(** [q] is the largest (smallest) value of the cell [f] over the groups. *)
Definition max_over (f : PerGroupMetrics → pyfloat)
    (gm : gmap string PerGroupMetrics) (q : Q) : Prop :=
  (∃ g m, gm !! g = Some m ∧ f m = Fin q) ∧
  ∀ g m x, gm !! g = Some m → f m = Fin x → (x <= q)%Q.

Definition min_over (f : PerGroupMetrics → pyfloat)
    (gm : gmap string PerGroupMetrics) (q : Q) : Prop :=
  (∃ g m, gm !! g = Some m ∧ f m = Fin q) ∧
  ∀ g m x, gm !! g = Some m → f m = Fin x → (q <= x)%Q.

(** Row [r2], read at threshold [θ2], is predicted positive only if row
    [r1], read at [θ1], is; both carry the same label and tag. *)
Definition dominates (θ1 θ2 : pyfloat) (r1 r2 : Row) : Prop :=
  r_label r2 = r_label r1 ∧ r_group r2 = r_group r1 ∧
  (ge (r_pred r2) θ2 = true → ge (r_pred r1) θ1 = true).

(** The row that [run_inference] writes for row [r] scored [p]. *)
Definition scored (θ : pyfloat) (r : Row) (p : pyfloat) : Row :=
  {| r_label := r_label r; r_group := r_group r;
     r_pred := Fin (inject_Z (Z.b2z (ge p θ))); r_prob := p |}.

(** The result with every bootstrap interval blanked. *)
Definition without_ci (results : gmap string PerGroupMetrics)
  : gmap string PerGroupMetrics :=
  (λ m, set_ci m None) <$> results.

End Spec.

(** ** Concrete tables, on which the engine is run in the examples *)

Module Examples.
Import Py Loan.

Definition row (g : option string) (label : Z) (pred : Q) : Row :=
  {| r_label := Some label; r_group := g; r_pred := Fin pred;
     r_prob := Fin pred |}.

(** One approved applicant with a positive label whose sensitive attribute
    cell is empty. *)
Definition untagged_table : DataFrame := [row None 1 1].

(** Two groups: in A one approval out of three rows, in B one row, approved. *)
Definition small_table : DataFrame :=
  [row (Some "A") 1 1; row (Some "A") 0 0; row (Some "A") 1 0;
   row (Some "B") 0 1].

(** Nobody is approved, in either group. *)
Definition none_approved_table : DataFrame :=
  [row (Some "A") 1 0; row (Some "B") 0 0].

(** Ten predictions, three of them positive. *)
Definition ten_predictions : list Z := [1; 1; 1; 0; 0; 0; 0; 0; 0; 0].

(** The metrics of the groups A (80 rows, 40 approved) and B (20 rows, 4
    approved). *)
Definition metrics_A : PerGroupMetrics :=
  {| count := 80; approval_rate := Fin (1 # 2); approval_rate_ci := None;
     accuracy := Fin 1; tpr := Fin 1; fpr := Fin 0; tnr := Fin 1;
     fnr := Fin 0; precision := Fin 1; recall := Fin 1; f1_score := Fin 1;
     auc := None |}.

Definition metrics_B : PerGroupMetrics :=
  {| count := 20; approval_rate := Fin (1 # 5); approval_rate_ci := None;
     accuracy := Fin (1 # 5); tpr := Fin (1 # 5); fpr := Fin 0; tnr := Fin 0;
     fnr := Fin (4 # 5); precision := Fin 1; recall := Fin (1 # 5);
     f1_score := Fin (1 # 3); auc := None |}.

Definition two_groups : gmap string PerGroupMetrics :=
  <["A" := metrics_A]> (<["B" := metrics_B]> ∅).

Definition one_group : gmap string PerGroupMetrics :=
  <["A" := metrics_A]> ∅.

(** Scores for the four rows of [small_table]. *)
Definition small_scores : list pyfloat :=
  [Fin (9 # 10); Fin (1 # 10); Fin (1 # 2); Fin (3 # 5)].

(** One group only. *)
Definition single_group_table : DataFrame :=
  [row (Some "A") 1 0; row (Some "A") 0 0].

Definition single_group_scores : list pyfloat := [Fin (9 # 10); Fin (1 # 5)].

Definition half : pyfloat := Fin (1 # 2).

Definition engine (θ : pyfloat) : MetricsEngine :=
  {| threshold := θ; bootstrap_ci_enabled := true |}.

End Examples.

Module FaceSpec.
Import Py Face.

(** The dict that [ResultsGenerator.add] appends for a genuine pair. *)
Definition pair_of (group aug : string) (sim θ : pyfloat) : PairRow :=
  {| p_group := group; p_augmentation := aug; p_label := 1;
     p_similarity := sim; p_prediction := Z.b2z (ge sim θ) |}.

(** The answers of the collaborators along the loop over the variants of
    [img]: each name is turned into an image, that image is embedded into
    a vector that is not all zero, and the similarity of that vector with
    [orig_emb] is computed.  Per name the list keeps the image, its
    embedding and the similarity. *)
Inductive variants `{H : FaceExternal} (img : Image) (orig_emb : Embedding)
  : list string → World → list (string * Image * Embedding * pyfloat)
    → World → Prop :=
| variants_nil w : variants img orig_emb [] w [] w
| variants_cons aug augs w aug_img w1 aug_emb w2 sim vs w' :
    apply_augmentation img aug w = (Returned aug_img, w1) →
    get_embedding aug_img w1 = (Returned (Some aug_emb), w2) →
    all_zero aug_emb = false →
    cosine_similarity orig_emb aug_emb = Returned sim →
    variants img orig_emb augs w2 vs w' →
    variants img orig_emb (aug :: augs) w
      ((aug, aug_img, aug_emb, sim) :: vs) w'.

(** The pairs recorded for the variants [vs] of an image of [group]. *)
Definition pairs_of `{H : FaceExternal} (group : string) (θ : pyfloat)
    (vs : list (string * Image * Embedding * pyfloat)) : list PairRow :=
  map (λ v, pair_of group v.1.1.1 v.2 θ) vs.

(** One image in the folder 'male', tested with three augmentations. *)
Definition one_image : list (string * list (option (list Z))) :=
  [("male", [Some [10; 20; 30]])].

Definition three_augmentations : list string :=
  ["flip"; "rotation"; "brightness"].

(** The state of the loops before the first image, in the toy pipeline. *)
Definition start : LoopState (H := Reference.toy_face) :=
  @Build_LoopState Reference.toy_face [] 0 ().

(** What the toy collaborators answer for that image: the embedding is the
    bias 1 followed by the pixels. *)
Definition toy_variants : list (string * list Z * list Z * pyfloat) :=
  [("original", [10; 20; 30], [1; 10; 20; 30], Fin (4 # 4));
   ("flip", [30; 20; 10], [1; 30; 20; 10], Fin (2 # 4));
   ("rotation", [11; 21; 31], [1; 11; 21; 31], Fin (1 # 4));
   ("brightness", [11; 21; 31], [1; 11; 21; 31], Fin (1 # 4))].

End FaceSpec.

(** ** Further notions for the engine's per-group cells *)

Module SpecMore.
Import Py Loan.

(** The rows of a partition whose label is (is not) the positive one. *)
Definition positives (pos_label : Z) (sub : DataFrame) : nat :=
  length (filter (λ r, r_label r = Some pos_label) sub).

Definition negatives (pos_label : Z) (sub : DataFrame) : nat :=
  length (filter (λ r, r_label r ≠ Some pos_label) sub).

(** A float cell that holds a number between 0 and 1. *)
Definition unit_interval (x : pyfloat) : Prop :=
  ∃ q, x = Fin q ∧ (0 <= q)%Q ∧ (q <= 1)%Q.

End SpecMore.

(** ** [MitigationAdvisor] of [loan_approval.py] *)

Module Advisor.
Import Py Loan.

Definition no_issue : string :=
  "No significant fairness issues detected. Continue monitoring.".

Definition disparate_impact_advice : list string :=
  ["DISPARATE IMPACT: consider reweighting examples, threshold adjustment, or fairness-aware retraining";
   "Check for proxy features (ZIP code, etc.) and consider removing or transforming them"].

Definition equal_opportunity_advice : list string :=
  ["EQUAL OPPORTUNITY GAP: consider per-group threshold calibration, collecting more data for underperforming groups"].

Definition general_advice : list string :=
  [""; "GENERAL: implement monitoring, document choices, and consider human-in-the-loop for ambiguous cases"].

(** [MitigationAdvisor.generate_recommendations]; the group metrics it is
    passed are not read. *)
Definition generate_recommendations (fairness_metrics : gmap string pyfloat)
    (flags : list string) : list string :=
  match flags with
  | [] => [no_issue]
  | _ :: _ =>
      let recommendations := [] in
      let recommendations :=
        if lt (get fairness_metrics "disparate_impact" (Fin 1)) (Fin (8 # 10))
        then recommendations ++ disparate_impact_advice
        else recommendations in
      let recommendations :=
        if gt (get fairness_metrics "equal_opportunity_difference" (Fin 0))
              (Fin (1 # 10))
        then recommendations ++ equal_opportunity_advice
        else recommendations in
      recommendations ++ general_advice
  end.

(** The four conditions of [identify_flags], in its order. *)
Definition triggers (d : gmap string pyfloat) : list bool :=
  [lt (get d "disparate_impact" (Fin 1)) (Fin (8 # 10));
   gt (get d "demographic_parity_difference" (Fin 0)) (Fin (10 # 100));
   gt (get d "equal_opportunity_difference" (Fin 0)) (Fin (10 # 100));
   gt (get d "equalized_odds_difference" (Fin 0)) (Fin (10 # 100))].

(** The keys of a non-empty disparity dict. *)
Definition disparity_keys : list string :=
  ["demographic_parity_difference"; "demographic_parity_ratio";
   "equal_opportunity_difference"; "equalized_odds_difference";
   "disparate_impact"].

End Advisor.

Module SpecSampler.
Import Py Loan.

(** A generator whose [choice] returns the requested number of draws, each
    of them an element of the data. *)
Definition sampler_sound `{External} : Prop :=
  ∀ st data n,
    data ≠ [] →
    length (random_choice st data n).1 = n ∧
    ∀ x, x ∈ (random_choice st data n).1 → x ∈ data.

(** An array of 0/1 entries. *)
Definition binary (l : list Z) : Prop := ∀ x, x ∈ l → x = 0 ∨ x = 1.

End SpecSampler.

Module ExamplesMore.
Import Py Loan.

(** Two groups in which nobody is approved. *)
Definition unapproved (tpr_ fpr_ : Q) : PerGroupMetrics :=
  {| count := 10; approval_rate := Fin 0; approval_rate_ci := None;
     accuracy := Fin (1 # 2); tpr := Fin tpr_; fpr := Fin fpr_;
     tnr := Fin 1; fnr := Fin 1; precision := Fin 0; recall := Fin tpr_;
     f1_score := Fin 0; auc := None |}.

Definition unapproved_groups : gmap string PerGroupMetrics :=
  <["A" := unapproved 0 0]> (<["B" := unapproved 0 0]> ∅).

(** Two groups with the same approval rate, TPR and FPR. *)
Definition alike : PerGroupMetrics :=
  {| count := 10; approval_rate := Fin (1 # 2); approval_rate_ci := None;
     accuracy := Fin (9 # 10); tpr := Fin (4 # 5); fpr := Fin (1 # 10);
     tnr := Fin (9 # 10); fnr := Fin (1 # 5); precision := Fin (8 # 9);
     recall := Fin (4 # 5); f1_score := Fin (16 # 19); auc := None |}.

Definition alike_groups : gmap string PerGroupMetrics :=
  <["A" := alike]> (<["B" := alike]> ∅).

End ExamplesMore.

(** ** The pairing of [TRIAL.py] *)

Module Trial.
Import Py.

(** One row of [embeddings_df] (the embedding column is not read by the
    pairing); after [reset_index(drop=True)] the index of a row is its
    position. *)
Record EmbRow := {
  e_identity : string;
  e_group : string;
  e_aug : string;
}.

(** [Series.unique()]: the distinct values in order of first appearance. *)
Fixpoint unique_from (seen : list string) (l : list string) : list string :=
  match l with
  | [] => []
  | x :: l' =>
      if bool_decide (x ∈ seen) then unique_from seen l'
      else x :: unique_from (x :: seen) l'
  end.

Definition unique (l : list string) : list string := unique_from [] l.

Definition indexed (df : list EmbRow) : list (nat * EmbRow) :=
  imap (λ i r, (i, r)) df.

(** The body of the loop over the identities. *)
Definition pairs_of_identity (df : list EmbRow) (identity : string)
  : list (nat * nat * Z) :=
  let rows := filter (λ ir, e_identity ir.2 = identity) (indexed df) in
  let originals := filter (λ ir, e_aug ir.2 = "original") rows in
  let augments := filter (λ ir, e_aug ir.2 ≠ "original") rows in
  match originals with
  | [] => []
  | (o_idx, _) :: _ => map (λ ir, (o_idx, ir.1, 1)) augments
  end.

(** [BiasEvaluator.generate_augmented_pairs] *)
Definition generate_augmented_pairs (df : list EmbRow) : list (nat * nat * Z) :=
  concat (map (pairs_of_identity df) (unique (map e_identity df))).

(** One identity with an original row and three augmented rows. *)
Definition one_identity : list EmbRow :=
  [ {| e_identity := "img001"; e_group := "male"; e_aug := "original" |};
    {| e_identity := "img001"; e_group := "male"; e_aug := "flip" |};
    {| e_identity := "img001"; e_group := "male"; e_aug := "rotation" |};
    {| e_identity := "img001"; e_group := "male"; e_aug := "brightness" |} ].

End Trial.

(** * Properties of the classification engine *)

Module LoanFacts.
Import Py Loan.

(** ** The rates never raise *)

Lemma rate_pos (num den : Z) :
  0 < den → rate num den = Returned (Fin (inject_Z num / inject_Z den)).
Proof.
  intros Hden. unfold rate, int_div.
  destruct (Z.ltb_spec 0 den) as [_|?]; [|lia].
  destruct (Z.eqb_spec den 0) as [?|_]; [lia|done].
Qed.

Lemma rate_nonpos (num den : Z) : den ≤ 0 → rate num den = Returned (Fin 0).
Proof.
  intros Hden. unfold rate.
  destruct (Z.ltb_spec 0 den) as [?|_]; [lia|done].
Qed.

Lemma rate_returns (num den : Z) : ∃ q, rate num den = Returned (Fin q).
Proof.
  destruct (Z_lt_le_dec 0 den) as [Hd|Hd].
  - eexists. by apply rate_pos.
  - eexists. by apply rate_nonpos.
Qed.

Lemma gt_zero_fin (x : pyfloat) :
  gt x zero = true → ∃ q, x = Fin q ∧ (0 < q)%Q.
Proof.
  destruct x as [|q]; simpl; [done|]. intros Hq. exists q. split; [done|].
  apply negb_true_iff in Hq. apply Qnot_le_lt. intros Hle.
  apply Qle_bool_iff in Hle. congruence.
Qed.

Lemma Qeq_bool_pos (q : Q) : (0 < q)%Q → Qeq_bool q 0 = false.
Proof.
  intros Hq. destruct (Qeq_bool q 0) eqn:E; [|done].
  apply Qeq_bool_iff in E. rewrite E in Hq. by apply Qlt_irrefl in Hq.
Qed.

Lemma f1_of_returns (p r : pyfloat) : ∃ v, f1_of p r = Returned v.
Proof.
  unfold f1_of. destruct (gt (add p r) zero) eqn:E; [|by eexists].
  apply gt_zero_fin in E as (q & Hq & Hpos).
  destruct p as [|a], r as [|b]; simpl in *; try done.
  injection Hq as <-. rewrite Qeq_bool_pos by done. by eexists.
Qed.

(** ** [groupby] is a partition of the tagged rows *)

Lemma elem_of_group_keys (g : string) (df : DataFrame) :
  g ∈ group_keys df ↔ ∃ r, r ∈ df ∧ r_group r = Some g.
Proof.
  unfold group_keys. rewrite merge_sort_Permutation, elem_of_remove_dups.
  rewrite list_elem_of_omap. naive_solver.
Qed.

Lemma NoDup_group_keys (df : DataFrame) : NoDup (group_keys df).
Proof.
  unfold group_keys. rewrite merge_sort_Permutation. apply NoDup_remove_dups.
Qed.

Lemma elem_of_groupby (g : string) (sub : DataFrame) (df : DataFrame) :
  (g, sub) ∈ groupby df ↔ g ∈ group_keys df ∧ sub = Spec.rows_of g df.
Proof.
  unfold groupby. rewrite list_elem_of_fmap. split.
  - intros (k & [= -> ->] & Hk). done.
  - intros [Hg ->]. by exists g.
Qed.

Lemma groupby_keys (df : DataFrame) : (groupby df).*1 = group_keys df.
Proof.
  unfold groupby. rewrite <-list_fmap_compose. simpl.
  induction (group_keys df) as [|k ks IH]; simpl; [done|]. by f_equal.
Qed.

Lemma in_group_true (g : string) (r : Row) :
  in_group g r = true ↔ r_group r = Some g.
Proof. unfold in_group. by rewrite bool_decide_eq_true. Qed.

(** No group is empty. *)
Lemma rows_of_nonempty (g : string) (df : DataFrame) :
  g ∈ group_keys df → (0 < length (Spec.rows_of g df))%nat.
Proof.
  intros (r & Hr & Hg)%elem_of_group_keys.
  assert (r ∈ Spec.rows_of g df) as Hin.
  { unfold Spec.rows_of. apply list_elem_of_filter. by rewrite in_group_true. }
  destruct (Spec.rows_of g df); [by apply elem_of_nil in Hin|simpl; lia].
Qed.

Lemma filter_ext_elem {A} (P Q : A → Prop) `{∀ x, Decision (P x)}
    `{∀ x, Decision (Q x)} (l : list A) :
  (∀ x, x ∈ l → P x ↔ Q x) → filter P l = filter Q l.
Proof.
  induction l as [|a l IH]; intros Hext; [done|].
  rewrite !filter_cons.
  assert (P a ↔ Q a) as Ha by (apply Hext; left).
  rewrite IH by (intros; apply Hext; by right).
  destruct (decide (P a)), (decide (Q a)); tauto || done.
Qed.

Section Weights.
Variable w : Row → Z.

Lemma wsum_cons r l : Spec.wsum w (r :: l) = w r + Spec.wsum w l.
Proof. done. Qed.

Lemma wsum_filter_keys (ks : list string) (df : DataFrame) :
  NoDup ks →
  sum (map (λ k, Spec.wsum w (Spec.rows_of k df)) ks)
  = Spec.wsum w (filter (λ r, Spec.keyed ks r = true) df).
Proof.
  intros Hnd. induction df as [|r df IH].
  - clear Hnd. induction ks as [|k ks IHk]; simpl; [done|]. by rewrite IHk.
  - rewrite filter_cons.
    assert (sum (map (λ k, Spec.wsum w (Spec.rows_of k (r :: df))) ks)
            = (if Spec.keyed ks r then w r else 0)
              + sum (map (λ k, Spec.wsum w (Spec.rows_of k df)) ks)) as ->.
    { clear IH. induction ks as [|k ks IHk]; simpl.
      - unfold Spec.keyed. destruct (r_group r); [|done].
        rewrite bool_decide_eq_false_2; [done|]. apply not_elem_of_nil.
      - apply NoDup_cons in Hnd as [Hk Hnd]. rewrite IHk by done.
        unfold Spec.rows_of at 1. rewrite filter_cons. unfold Spec.keyed.
        destruct (decide (in_group k r = true)) as [Hin|Hin].
        + rewrite wsum_cons. fold (Spec.rows_of k df).
          apply in_group_true in Hin. rewrite Hin.
          rewrite (bool_decide_eq_true_2 (k ∈ k :: ks)) by left.
          rewrite (bool_decide_eq_false_2 (k ∈ ks)) by done. lia.
        + fold (Spec.rows_of k df). rewrite in_group_true in Hin.
          destruct (r_group r) as [k0|]; [|lia].
          assert (k0 ≠ k) by congruence.
          destruct (decide (k0 ∈ ks)).
          * rewrite (bool_decide_eq_true_2 (k0 ∈ k :: ks)) by (by right).
            rewrite (bool_decide_eq_true_2 (k0 ∈ ks)) by done. lia.
          * rewrite (bool_decide_eq_false_2 (k0 ∈ k :: ks)).
            2:{ intros [?|?]%elem_of_cons; done. }
            rewrite (bool_decide_eq_false_2 (k0 ∈ ks)) by done. lia. }
    rewrite IH. destruct (Spec.keyed ks r) eqn:E.
    + rewrite decide_True by done. by rewrite wsum_cons.
    + rewrite decide_False by congruence. lia.
Qed.

Lemma wsum_groupby (df : DataFrame) :
  sum (map (λ gs, Spec.wsum w gs.2) (groupby df)) = Spec.wsum w (Spec.tagged df).
Proof.
  unfold groupby. rewrite <-list_fmap_compose.
  change (sum (map (λ k, Spec.wsum w (Spec.rows_of k df)) (group_keys df))
          = Spec.wsum w (Spec.tagged df)).
  rewrite wsum_filter_keys by apply NoDup_group_keys.
  unfold Spec.tagged. f_equal. apply filter_ext_elem.
  intros r Hr. unfold Spec.keyed. destruct (r_group r) as [g|] eqn:Hg.
  - rewrite bool_decide_eq_true. split; [by eexists|intros _].
    apply elem_of_group_keys. by exists r.
  - split; [done|]. by intros [? ?].
Qed.

End Weights.

(** ** The counters, row by row *)

Lemma sum_both_eq_map {A} (f g : A → Z) (x y : Z) (l : list A) :
  sum (both_eq (map f l) x (map g l) y)
  = sum (map (λ r, Z.b2z (Z.eqb (f r) x && Z.eqb (g r) y)) l).
Proof. induction l as [|a l IH]; simpl; [done|]. by rewrite <-IH. Qed.

Lemma confusion_cells θ pos_label sub :
  TP (Spec.group_confusion θ pos_label sub)
    = Spec.wsum (Spec.cell θ pos_label 1 1) sub ∧
  FP (Spec.group_confusion θ pos_label sub)
    = Spec.wsum (Spec.cell θ pos_label 1 0) sub ∧
  TN (Spec.group_confusion θ pos_label sub)
    = Spec.wsum (Spec.cell θ pos_label 0 0) sub ∧
  FN (Spec.group_confusion θ pos_label sub)
    = Spec.wsum (Spec.cell θ pos_label 0 1) sub.
Proof.
  unfold Spec.group_confusion, confusion, y_pred_of, y_true_of; simpl.
  by rewrite !sum_both_eq_map.
Qed.

Lemma wsum_nonneg (w : Row → Z) (l : DataFrame) :
  (∀ r, 0 ≤ w r) → 0 ≤ Spec.wsum w l.
Proof.
  intros Hw. induction l as [|r l IH]; [done|].
  rewrite wsum_cons. specialize (Hw r). lia.
Qed.

Lemma cell_nonneg θ pos_label x y r : 0 ≤ Spec.cell θ pos_label x y r.
Proof. unfold Spec.cell. by destruct (_ && _). Qed.

Lemma confusion_nonneg θ pos_label sub :
  0 ≤ TP (Spec.group_confusion θ pos_label sub) ∧
  0 ≤ FP (Spec.group_confusion θ pos_label sub) ∧
  0 ≤ TN (Spec.group_confusion θ pos_label sub) ∧
  0 ≤ FN (Spec.group_confusion θ pos_label sub).
Proof.
  destruct (confusion_cells θ pos_label sub) as (-> & -> & -> & ->).
  repeat split; apply wsum_nonneg; intros; apply cell_nonneg.
Qed.

(** Every row falls in exactly one of the four cells. *)
Lemma confusion_total θ pos_label sub :
  TP (Spec.group_confusion θ pos_label sub)
  + FP (Spec.group_confusion θ pos_label sub)
  + TN (Spec.group_confusion θ pos_label sub)
  + FN (Spec.group_confusion θ pos_label sub) = Z.of_nat (length sub).
Proof.
  destruct (confusion_cells θ pos_label sub) as (-> & -> & -> & ->).
  induction sub as [|r sub IH]; [done|].
  rewrite !wsum_cons. simpl length. rewrite Nat2Z.inj_succ, <-IH.
  unfold Spec.cell.
  destruct (ge (r_pred r) θ), (bool_decide (r_label r = Some pos_label));
    simpl; lia.
Qed.

Lemma rate_ratio (num den : Z) :
  0 ≤ den → rate num den = Returned (Spec.ratio num den).
Proof.
  intros Hden. unfold Spec.ratio. case_decide as Hz.
  - apply rate_nonpos. lia.
  - apply rate_pos. lia.
Qed.

(** ** The sums over the groups *)

Lemma total_over_wsum (f : ConfusionCounts → Z) (w : Row → Z) θ pos_label
    (groups : list (string * DataFrame)) :
  (∀ sub, f (Spec.group_confusion θ pos_label sub) = Spec.wsum w sub) →
  Spec.total_over f θ pos_label groups
  = sum (map (λ gs, Spec.wsum w gs.2) groups).
Proof.
  intros Hf. unfold Spec.total_over.
  induction groups as [|gs groups IH]; simpl; [done|]. by rewrite Hf, IH.
Qed.

Lemma total_over_tagged θ pos_label df :
  Spec.total_over TP θ pos_label (groupby df)
    = TP (Spec.group_confusion θ pos_label (Spec.tagged df)) ∧
  Spec.total_over FP θ pos_label (groupby df)
    = FP (Spec.group_confusion θ pos_label (Spec.tagged df)) ∧
  Spec.total_over TN θ pos_label (groupby df)
    = TN (Spec.group_confusion θ pos_label (Spec.tagged df)) ∧
  Spec.total_over FN θ pos_label (groupby df)
    = FN (Spec.group_confusion θ pos_label (Spec.tagged df)).
Proof.
  destruct (confusion_cells θ pos_label (Spec.tagged df)) as (-> & -> & -> & ->).
  split_and!.
  - rewrite (total_over_wsum TP (Spec.cell θ pos_label 1 1));
      [apply wsum_groupby|intros; apply confusion_cells].
  - rewrite (total_over_wsum FP (Spec.cell θ pos_label 1 0));
      [apply wsum_groupby|intros; apply confusion_cells].
  - rewrite (total_over_wsum TN (Spec.cell θ pos_label 0 0));
      [apply wsum_groupby|intros; apply confusion_cells].
  - rewrite (total_over_wsum FN (Spec.cell θ pos_label 0 1));
      [apply wsum_groupby|intros; apply confusion_cells].
Qed.

Lemma tagged_all (df : DataFrame) :
  (∀ r, r ∈ df → is_Some (r_group r)) → Spec.tagged df = df.
Proof.
  intros Hall. unfold Spec.tagged. induction df as [|r df IH]; [done|].
  rewrite filter_cons, decide_True by (apply Hall; left).
  f_equal. apply IH. intros; apply Hall; by right.
Qed.

(** A row whose group cell is null is in no group: the sum of the
    per-group true positives misses it. *)
Lemma C2_null_tag_row_is_dropped :
  Spec.total_over TP Examples.half 1 (groupby Examples.untagged_table) = 0 ∧
  TP (Spec.group_confusion Examples.half 1 Examples.untagged_table) = 1 ∧
  Spec.total_over TP Examples.half 1 (groupby Examples.untagged_table)
  ≠ TP (Spec.group_confusion Examples.half 1 Examples.untagged_table).
Proof. split_and!; [reflexivity|reflexivity|discriminate]. Qed.

(** ** The built-in [max] and [min] on finite values *)

Lemma gt_fin (x y : Q) : gt (Fin x) (Fin y) = true ↔ (y < x)%Q.
Proof.
  simpl. rewrite negb_true_iff. split.
  - intros Hb. apply Qnot_le_lt. intros Hle%Qle_bool_iff. congruence.
  - intros Hlt. destruct (Qle_bool x y) eqn:E; [|done].
    apply Qle_bool_iff in E. by apply Qlt_not_le in Hlt.
Qed.

Lemma gt_fin_false (x y : Q) : gt (Fin x) (Fin y) = false ↔ (x <= y)%Q.
Proof.
  simpl. rewrite negb_false_iff. apply Qle_bool_iff.
Qed.

Lemma fold_max2_fin (l : list pyfloat) (q0 : Q) :
  Forall is_fin l →
  ∃ q, fold_left max2 l (Fin q0) = Fin q ∧
       Fin q ∈ Fin q0 :: l ∧ ∀ x, Fin x ∈ Fin q0 :: l → (x <= q)%Q.
Proof.
  revert q0. induction l as [|[|a] l IH]; intros q0 Hfin.
  - exists q0. split_and!; [done|left|].
    intros x [[= ->]|Hx%elem_of_nil]%elem_of_cons; [apply Qle_refl|done].
  - by apply Forall_cons in Hfin as [[] _].
  - apply Forall_cons in Hfin as [_ Hfin]. simpl fold_left. unfold max2 at 2.
    destruct (gt (Fin a) (Fin q0)) eqn:E.
    + apply gt_fin in E. destruct (IH a Hfin) as (q & -> & Hin & Hub).
      exists q. split_and!; [done|by right|].
      intros x [[= ->]|Hx]%elem_of_cons; [|by apply Hub].
      apply Qle_trans with a; [by apply Qlt_le_weak|]. apply Hub. left.
    + apply gt_fin_false in E. destruct (IH q0 Hfin) as (q & -> & Hin & Hub).
      exists q. split_and!; [done| |].
      * apply elem_of_cons in Hin as [->|Hin]; [left|by do 2 right].
      * intros x [[= ->]|[[= ->]|Hx]%elem_of_cons]%elem_of_cons.
        -- apply Hub. left.
        -- apply Qle_trans with q0; [done|]. apply Hub. left.
        -- apply Hub. by right.
Qed.

Lemma fold_min2_fin (l : list pyfloat) (q0 : Q) :
  Forall is_fin l →
  ∃ q, fold_left min2 l (Fin q0) = Fin q ∧
       Fin q ∈ Fin q0 :: l ∧ ∀ x, Fin x ∈ Fin q0 :: l → (q <= x)%Q.
Proof.
  revert q0. induction l as [|[|a] l IH]; intros q0 Hfin.
  - exists q0. split_and!; [done|left|].
    intros x [[= ->]|Hx%elem_of_nil]%elem_of_cons; [apply Qle_refl|done].
  - by apply Forall_cons in Hfin as [[] _].
  - apply Forall_cons in Hfin as [_ Hfin]. simpl fold_left. unfold min2 at 2.
    unfold lt. destruct (gt (Fin q0) (Fin a)) eqn:E.
    + apply gt_fin in E. destruct (IH a Hfin) as (q & -> & Hin & Hlb).
      exists q. split_and!; [done|by right|].
      intros x [[= ->]|Hx]%elem_of_cons; [|by apply Hlb].
      apply Qle_trans with a; [|by apply Qlt_le_weak]. apply Hlb. left.
    + apply gt_fin_false in E. destruct (IH q0 Hfin) as (q & -> & Hin & Hlb).
      exists q. split_and!; [done| |].
      * apply elem_of_cons in Hin as [->|Hin]; [left|by do 2 right].
      * intros x [[= ->]|[[= ->]|Hx]%elem_of_cons]%elem_of_cons.
        -- apply Hlb. left.
        -- apply Qle_trans with q0; [|done]. apply Hlb. left.
        -- apply Hlb. by right.
Qed.

Lemma max_returns (l : list pyfloat) :
  l ≠ [] → ∃ v, max l = Returned v ∧
    (Forall is_fin l →
     ∃ q, v = Fin q ∧ Fin q ∈ l ∧ ∀ x, Fin x ∈ l → (x <= q)%Q).
Proof.
  destruct l as [|[|q0] l]; [done| |]; intros _; simpl; eexists; (split; [done|]).
  - by intros [[] _]%Forall_cons.
  - intros [_ Hfin]%Forall_cons.
    destruct (fold_max2_fin l q0 Hfin) as (q & Hq & ?). by exists q.
Qed.

Lemma min_returns (l : list pyfloat) :
  l ≠ [] → ∃ v, min l = Returned v ∧
    (Forall is_fin l →
     ∃ q, v = Fin q ∧ Fin q ∈ l ∧ ∀ x, Fin x ∈ l → (q <= x)%Q).
Proof.
  destruct l as [|[|q0] l]; [done| |]; intros _; simpl; eexists; (split; [done|]).
  - by intros [[] _]%Forall_cons.
  - intros [_ Hfin]%Forall_cons.
    destruct (fold_min2_fin l q0 Hfin) as (q & Hq & ?). by exists q.
Qed.

(** ** The cells of a dict of group metrics, as lists *)

Lemma elem_of_cells (f : PerGroupMetrics → pyfloat)
    (gm : gmap string PerGroupMetrics) (v : pyfloat) :
  v ∈ map f (map_to_list gm).*2 ↔ ∃ g m, gm !! g = Some m ∧ f m = v.
Proof.
  change (map f (map_to_list gm).*2) with (f <$> (map_to_list gm).*2).
  rewrite list_elem_of_fmap. split.
  - intros (m & -> & Hm). apply list_elem_of_fmap in Hm as ([g m'] & -> & Hm).
    apply elem_of_map_to_list in Hm. by exists g, m'.
  - intros (g & m & Hg & <-). exists m. split; [done|].
    apply list_elem_of_fmap. exists (g, m). split; [done|].
    by apply elem_of_map_to_list.
Qed.

Lemma cells_nonempty (f : PerGroupMetrics → pyfloat)
    (gm : gmap string PerGroupMetrics) :
  (2 ≤ size gm)%nat → map f (map_to_list gm).*2 ≠ [].
Proof.
  intros Hsize Hnil. apply (f_equal length) in Hnil.
  rewrite length_map, length_fmap, length_map_to_list in Hnil.
  simpl in Hnil. lia.
Qed.

Lemma max_cells (f : PerGroupMetrics → pyfloat)
    (gm : gmap string PerGroupMetrics) :
  (2 ≤ size gm)%nat →
  ∃ v, max (map f (map_to_list gm).*2) = Returned v ∧
    ((∀ g m, gm !! g = Some m → is_fin (f m)) →
     ∃ q, v = Fin q ∧ Spec.max_over f gm q).
Proof.
  intros Hsize.
  destruct (max_returns _ (cells_nonempty f gm Hsize)) as (v & Hv & Hfin).
  exists v. split; [done|]. intros Hall.
  destruct Hfin as (q & -> & Hin & Hub).
  { apply Forall_forall. intros x (g & m & Hg & <-)%elem_of_cells. eauto. }
  exists q. split; [done|]. split.
  - by apply elem_of_cells in Hin.
  - intros g m x Hg Hx. apply Hub, elem_of_cells. eauto.
Qed.

Lemma min_cells (f : PerGroupMetrics → pyfloat)
    (gm : gmap string PerGroupMetrics) :
  (2 ≤ size gm)%nat →
  ∃ v, min (map f (map_to_list gm).*2) = Returned v ∧
    ((∀ g m, gm !! g = Some m → is_fin (f m)) →
     ∃ q, v = Fin q ∧ Spec.min_over f gm q).
Proof.
  intros Hsize.
  destruct (min_returns _ (cells_nonempty f gm Hsize)) as (v & Hv & Hfin).
  exists v. split; [done|]. intros Hall.
  destruct Hfin as (q & -> & Hin & Hlb).
  { apply Forall_forall. intros x (g & m & Hg & <-)%elem_of_cells. eauto. }
  exists q. split; [done|]. split.
  - by apply elem_of_cells in Hin.
  - intros g m x Hg Hx. apply Hlb, elem_of_cells. eauto.
Qed.

(** ** [compute_fairness_metrics] on two groups or more *)

Lemma compute_fairness_metrics_unfold (gm : gmap string PerGroupMetrics)
    max_ar min_ar max_tpr min_tpr max_fpr min_fpr dp_ratio :
  (2 ≤ size gm)%nat →
  max (map approval_rate (map_to_list gm).*2) = Returned max_ar →
  min (map approval_rate (map_to_list gm).*2) = Returned min_ar →
  max (map tpr (map_to_list gm).*2) = Returned max_tpr →
  min (map tpr (map_to_list gm).*2) = Returned min_tpr →
  max (map fpr (map_to_list gm).*2) = Returned max_fpr →
  min (map fpr (map_to_list gm).*2) = Returned min_fpr →
  (if gt max_ar zero then div min_ar max_ar else Returned zero)
    = Returned dp_ratio →
  compute_fairness_metrics gm =
    Returned (<["demographic_parity_difference" := sub max_ar min_ar]>
             (<["demographic_parity_ratio" := dp_ratio]>
             (<["equal_opportunity_difference" := sub max_tpr min_tpr]>
             (<["equalized_odds_difference" :=
                  max2 (sub max_tpr min_tpr) (sub max_fpr min_fpr)]>
             (<["disparate_impact" := dp_ratio]> ∅))))).
Proof.
  intros Hsize H1 H2 H3 H4 H5 H6 H7. unfold compute_fairness_metrics.
  destruct (Nat.ltb_spec (size gm) 2) as [?|_]; [lia|].
  cbv zeta. rewrite H1. cbn [bind]. rewrite H2. cbn [bind].
  rewrite H7. cbn [bind]. rewrite H3. cbn [bind]. rewrite H4. cbn [bind].
  rewrite H5. cbn [bind]. rewrite H6. cbn [bind]. done.
Qed.

Lemma dp_ratio_fin (a b : Q) :
  ∃ r, (if gt (Fin a) zero then div (Fin b) (Fin a) else Returned zero)
         = Returned (Fin r) ∧
       ((0 < a)%Q → r = (b / a)%Q) ∧ ((a <= 0)%Q → r = 0%Q).
Proof.
  destruct (gt (Fin a) zero) eqn:E.
  - apply gt_fin in E. exists (b / a)%Q. simpl.
    rewrite Qeq_bool_pos by done. split_and!; [done|done|].
    intros Hle. by apply Qlt_not_le in E.
  - apply gt_fin_false in E. exists 0%Q. split_and!; [done| |done].
    intros Hlt. by apply Qlt_not_le in Hlt.
Qed.

Lemma max2_fin (a b : Q) :
  ∃ v, max2 (Fin a) (Fin b) = Fin v ∧
       (v = a ∨ v = b) ∧ (a <= v)%Q ∧ (b <= v)%Q.
Proof.
  unfold max2. destruct (gt (Fin b) (Fin a)) eqn:E.
  - apply gt_fin in E. exists b. split_and!; [done|by right| |apply Qle_refl].
    by apply Qlt_le_weak.
  - apply gt_fin_false in E. exists a.
    split_and!; [done|by left|apply Qle_refl|done].
Qed.

(** C3. On two groups or more whose approval rates, TPRs and FPRs are
    numbers, [compute_fairness_metrics] returns: the largest minus the
    smallest approval rate as demographic_parity_difference; the smallest
    over the largest approval rate, and 0.0 when the largest is not
    positive, as demographic_parity_ratio; the largest minus the smallest
    TPR as equal_opportunity_difference; the larger of the TPR gap and the
    FPR gap (one of the two, not their sum) as equalized_odds_difference;
    and the demographic_parity_ratio again as disparate_impact. *)
Theorem C3_fairness_metrics (gm : gmap string PerGroupMetrics) :
  (2 ≤ size gm)%nat →
  (∀ g m, gm !! g = Some m →
     is_fin (approval_rate m) ∧ is_fin (tpr m) ∧ is_fin (fpr m)) →
  ∃ ar_max ar_min tpr_max tpr_min fpr_max fpr_min ratio odds fm,
    Spec.max_over approval_rate gm ar_max ∧
    Spec.min_over approval_rate gm ar_min ∧
    Spec.max_over tpr gm tpr_max ∧ Spec.min_over tpr gm tpr_min ∧
    Spec.max_over fpr gm fpr_max ∧ Spec.min_over fpr gm fpr_min ∧
    compute_fairness_metrics gm = Returned fm ∧
    fm !! "demographic_parity_difference" = Some (Fin (ar_max - ar_min)) ∧
    fm !! "demographic_parity_ratio" = Some (Fin ratio) ∧
    ((0 < ar_max)%Q → ratio = (ar_min / ar_max)%Q) ∧
    ((ar_max <= 0)%Q → ratio = 0%Q) ∧
    fm !! "equal_opportunity_difference" = Some (Fin (tpr_max - tpr_min)) ∧
    fm !! "equalized_odds_difference" = Some (Fin odds) ∧
    (odds = (tpr_max - tpr_min)%Q ∨ odds = (fpr_max - fpr_min)%Q) ∧
    (tpr_max - tpr_min <= odds)%Q ∧ (fpr_max - fpr_min <= odds)%Q ∧
    fm !! "disparate_impact" = Some (Fin ratio).
Proof.
  intros Hsize Hfin.
  destruct (max_cells approval_rate gm Hsize) as (? & E1 & (a1 & -> & M1));
    [intros; by eapply Hfin|].
  destruct (min_cells approval_rate gm Hsize) as (? & E2 & (a2 & -> & M2));
    [intros; by eapply Hfin|].
  destruct (max_cells tpr gm Hsize) as (? & E3 & (t1 & -> & M3));
    [intros g m Hg; by destruct (Hfin g m Hg) as (_ & ? & _)|].
  destruct (min_cells tpr gm Hsize) as (? & E4 & (t2 & -> & M4));
    [intros g m Hg; by destruct (Hfin g m Hg) as (_ & ? & _)|].
  destruct (max_cells fpr gm Hsize) as (? & E5 & (f1 & -> & M5));
    [intros g m Hg; by destruct (Hfin g m Hg) as (_ & _ & ?)|].
  destruct (min_cells fpr gm Hsize) as (? & E6 & (f2 & -> & M6));
    [intros g m Hg; by destruct (Hfin g m Hg) as (_ & _ & ?)|].
  destruct (dp_ratio_fin a1 a2) as (ratio & E7 & Hpos & Hzero).
  destruct (max2_fin (t1 - t2) (f1 - f2)) as (odds & Hodds & Hor & Ht & Hf).
  exists a1, a2, t1, t2, f1, f2, ratio, odds. eexists.
  split_and!; try done.
  - by apply compute_fairness_metrics_unfold.
  - done.
  - done.
  - done.
  - simpl sub. rewrite Hodds. done.
  - done.
Qed.

Lemma compute_fairness_metrics_small (gm : gmap string PerGroupMetrics) :
  (size gm < 2)%nat → compute_fairness_metrics gm = Returned ∅.
Proof.
  intros Hsize. unfold compute_fairness_metrics.
  by destruct (Nat.ltb_spec (size gm) 2) as [_|?]; [|lia].
Qed.

(** C9. Given a dict of fewer than two groups, [compute_fairness_metrics]
    raises nothing and returns the empty dict. *)
Theorem C9_fewer_than_two_groups (gm : gmap string PerGroupMetrics) :
  (size gm < 2)%nat →
  compute_fairness_metrics gm = Returned ∅ ∧
  ∀ e, compute_fairness_metrics gm ≠ Raised e.
Proof.
  intros Hsize. rewrite compute_fairness_metrics_small by done. done.
Qed.

Lemma feq_fin (x y : Q) : Fin x =f Fin y ↔ (x == y)%Q.
Proof. done. Qed.

(** C6 (amended). On two groups or more whose approval rates lie in
    [0,1], the demographic_parity_ratio lies in [0,1]; it is the smallest
    over the largest approval rate when the largest is positive and 0.0
    when the largest is 0.  When all groups have the same approval rate,
    the demographic_parity_difference is 0, and the ratio is 1 if that
    rate is positive and 0.0 if it is 0. *)
Theorem C6_parity_ratio_bounds (gm : gmap string PerGroupMetrics) :
  (2 ≤ size gm)%nat →
  (∀ g m, gm !! g = Some m →
     ∃ q, approval_rate m = Fin q ∧ (0 <= q)%Q ∧ (q <= 1)%Q) →
  ∃ ar_max ar_min diff ratio fm,
    Spec.max_over approval_rate gm ar_max ∧
    Spec.min_over approval_rate gm ar_min ∧
    compute_fairness_metrics gm = Returned fm ∧
    fm !! "demographic_parity_difference" = Some (Fin diff) ∧
    fm !! "demographic_parity_ratio" = Some (Fin ratio) ∧
    (0 <= ratio)%Q ∧ (ratio <= 1)%Q ∧
    ((0 < ar_max)%Q → (ratio == ar_min / ar_max)%Q) ∧
    ((ar_max == 0)%Q → (ratio == 0)%Q) ∧
    ((∀ g1 m1 g2 m2, gm !! g1 = Some m1 → gm !! g2 = Some m2 →
        approval_rate m1 =f approval_rate m2) →
     (diff == 0)%Q ∧
     ((0 < ar_max)%Q → (ratio == 1)%Q) ∧
     ((ar_max == 0)%Q → (ratio == 0)%Q)).
Proof.
  intros Hsize Hrange.
  assert (∀ g m, gm !! g = Some m → is_fin (approval_rate m)) as Hfin.
  { intros g m Hg. by destruct (Hrange g m Hg) as (q & -> & _). }
  destruct (max_cells approval_rate gm Hsize) as (? & E1 & (a1 & -> & M1));
    [done|].
  destruct (min_cells approval_rate gm Hsize) as (? & E2 & (a2 & -> & M2));
    [done|].
  destruct (max_cells tpr gm Hsize) as (t1 & E3 & _).
  destruct (min_cells tpr gm Hsize) as (t2 & E4 & _).
  destruct (max_cells fpr gm Hsize) as (f1 & E5 & _).
  destruct (min_cells fpr gm Hsize) as (f2 & E6 & _).
  destruct (dp_ratio_fin a1 a2) as (ratio & E7 & Hpos & Hzero).
  exists a1, a2, (a1 - a2)%Q, ratio. eexists.
  split_and!; [done|done|by apply compute_fairness_metrics_unfold|done|done|..].
  all: destruct M1 as [(g1 & m1 & Hg1 & Hm1) Hub].
  all: destruct M2 as [(g2 & m2 & Hg2 & Hm2) Hlb].
  all: destruct (Hrange g1 m1 Hg1) as (q1 & Hq1 & Hq1lo & Hq1hi).
  all: destruct (Hrange g2 m2 Hg2) as (q2 & Hq2 & Hq2lo & Hq2hi).
  all: assert (q1 = a1) as -> by congruence.
  all: assert (q2 = a2) as -> by congruence.
  all: assert (a2 <= a1)%Q as Hle by (by eapply Hub).
  - destruct (Qlt_le_dec 0 a1) as [Hp|Hn].
    + rewrite (Hpos Hp). apply Qle_shift_div_l; [done|]. lra.
    + rewrite (Hzero Hn). lra.
  - destruct (Qlt_le_dec 0 a1) as [Hp|Hn].
    + rewrite (Hpos Hp). apply Qle_shift_div_r; [done|]. lra.
    + rewrite (Hzero Hn). lra.
  - intros Hp. by rewrite (Hpos Hp).
  - intros Hz. rewrite Hzero; [done|]. lra.
  - intros Hsame.
    assert (a1 == a2)%Q as Heq.
    { specialize (Hsame g1 m1 g2 m2 Hg1 Hg2). by rewrite Hm1, Hm2 in Hsame. }
    split_and!.
    + lra.
    + intros Hp. rewrite (Hpos Hp), <-Heq. unfold Qdiv.
      apply Qmult_inv_r. lra.
    + intros Hz. rewrite Hzero; [done|]. lra.
Qed.

(** ** Inference keeps labels and tags and writes 0/1 predictions *)

Lemma run_inference_rows θ (df : DataFrame) (probabilities : list pyfloat) :
  length probabilities = length df →
  ∃ df', run_inference θ df probabilities = Returned df' ∧
    Forall2 (λ r r', r_label r' = r_label r ∧ r_group r' = r_group r ∧
                     ∃ p, r_prob r' = p ∧
                          r_pred r' = Fin (inject_Z (Z.b2z (ge p θ))))
            df df'.
Proof.
  intros Hlen. unfold run_inference. rewrite Hlen, Nat.eqb_refl.
  eexists. split; [done|]. unfold predict.
  revert probabilities Hlen.
  induction df as [|r df IH]; intros [|p ps] Hlen; simplify_eq/=; [done|].
  constructor; [|by apply IH]. simpl. eauto.
Qed.

Lemma Forall2_same_keys (R : Row → Row → Prop) (df df' : DataFrame) :
  (∀ r r', R r r' → r_group r' = r_group r) →
  Forall2 R df df' → group_keys df' = group_keys df.
Proof.
  intros HR Hall. unfold group_keys. do 2 f_equal.
  induction Hall as [|r r' df df' Hr _ IH]; [done|].
  change (omap r_group (r' :: df'))
    with (match r_group r' with
          | Some y => y :: omap r_group df'
          | None => omap r_group df'
          end).
  change (omap r_group (r :: df))
    with (match r_group r with
          | Some y => y :: omap r_group df
          | None => omap r_group df
          end).
  by rewrite (HR _ _ Hr), IH.
Qed.

Lemma astype_int_01 (b : bool) :
  astype_int (Fin (inject_Z (Z.b2z b))) = Returned (Z.b2z b).
Proof. by destruct b. Qed.

Lemma astype_int_all_fmap (l : list pyfloat) (zs : list Z) :
  Forall2 (λ x z, astype_int x = Returned z) l zs →
  astype_int_all l = Returned zs.
Proof.
  induction 1 as [|x z l zs Hx _ IH]; [done|]. simpl. by rewrite Hx, IH.
Qed.

Lemma identify_flags_empty `{External} : identify_flags ∅ = Returned [].
Proof. reflexivity. Qed.

Lemma size_le_keys {A} (m : gmap string A) (ks : list string) :
  (∀ g, is_Some (m !! g) → g ∈ ks) → (size m ≤ length ks)%nat.
Proof.
  intros Hdom. rewrite <-length_map_to_list, <-(length_fmap fst).
  apply submseteq_length, NoDup_submseteq; [apply NoDup_fst_map_to_list|].
  intros g ([g' a] & -> & Hin)%list_elem_of_fmap.
  apply elem_of_map_to_list in Hin. apply Hdom. by eexists.
Qed.

(** ** Raising the threshold *)

Lemma ge_fin (x y : Q) : ge (Fin x) (Fin y) = true ↔ (y <= x)%Q.
Proof. apply Qle_bool_iff. Qed.

Lemma ge_true_fin (a b : pyfloat) :
  ge a b = true → ∃ x y, a = Fin x ∧ b = Fin y ∧ (y <= x)%Q.
Proof.
  destruct a as [|x], b as [|y]; try done. intros Hge%ge_fin. by exists x, y.
Qed.

Lemma ge_trans (a b c : pyfloat) :
  ge a b = true → ge b c = true → ge a c = true.
Proof.
  intros (x & y & -> & -> & Hxy)%ge_true_fin (y' & z & [= <-] & -> & Hyz)%ge_true_fin.
  apply ge_fin. by apply Qle_trans with y.
Qed.

Lemma run_inference_eq θ (df : DataFrame) (probabilities : list pyfloat) :
  length probabilities = length df →
  run_inference θ df probabilities
  = Returned (zip_with (Spec.scored θ) df probabilities).
Proof.
  intros Hlen. unfold run_inference. rewrite Hlen, Nat.eqb_refl.
  f_equal. unfold predict. clear Hlen. revert probabilities.
  induction df as [|r df IH]; intros [|p ps]; simpl; [done..|].
  by rewrite IH.
Qed.

Lemma scored_dominates (θ1 θ2 : pyfloat) (r : Row) (p : pyfloat) :
  ge θ2 θ1 = true →
  Spec.dominates θ1 θ2 (Spec.scored θ1 r p) (Spec.scored θ2 r p).
Proof.
  intros (b & a & -> & -> & Hab)%ge_true_fin.
  split_and!; [done|done|]. simpl r_pred. rewrite !ge_fin.
  destruct p as [|q]; simpl ge.
  - simpl. unfold inject_Z. lra.
  - destruct (Qle_bool b q) eqn:Eb, (Qle_bool a q) eqn:Ea; simpl;
      unfold inject_Z; try lra.
    apply Qle_bool_iff in Eb.
    assert (¬ (a <= q)%Q) as Hn by (rewrite <-Qle_bool_iff; congruence).
    lra.
Qed.

Lemma scored_table_dominates (θ1 θ2 : pyfloat) (df : DataFrame)
    (probabilities : list pyfloat) :
  ge θ2 θ1 = true →
  Forall2 (Spec.dominates θ1 θ2)
    (zip_with (Spec.scored θ1) df probabilities)
    (zip_with (Spec.scored θ2) df probabilities).
Proof.
  intros Hge. revert probabilities.
  induction df as [|r df IH]; intros [|p ps]; simpl; try constructor.
  - by apply scored_dominates.
  - apply IH.
Qed.

Lemma same_table_dominates (θ1 θ2 : pyfloat) (df : DataFrame) :
  ge θ2 θ1 = true → Forall2 (Spec.dominates θ1 θ2) df df.
Proof.
  intros Hge. apply Forall_Forall2_diag, Forall_forall. intros r _.
  split_and!; [done|done|]. intros Hr. by apply ge_trans with θ2.
Qed.

Lemma rows_of_dominates (θ1 θ2 : pyfloat) (g : string) (df1 df2 : DataFrame) :
  Forall2 (Spec.dominates θ1 θ2) df1 df2 →
  Forall2 (Spec.dominates θ1 θ2) (Spec.rows_of g df1) (Spec.rows_of g df2).
Proof.
  unfold Spec.rows_of. induction 1 as [|r1 r2 df1 df2 Hr _ IH]; [done|].
  rewrite !filter_cons. destruct Hr as (Hl & Hg & Hp).
  assert (in_group g r2 = in_group g r1) as -> by (unfold in_group; by rewrite Hg).
  case_decide; [constructor|]; done.
Qed.

Lemma cell_row θ pos_label x y r :
  Spec.cell θ pos_label x y r
  = Z.b2z (Z.eqb (Z.b2z (ge (r_pred r) θ)) x
           && Z.eqb (Z.b2z (bool_decide (r_label r = Some pos_label))) y).
Proof. done. Qed.

Lemma cells_dominates (θ1 θ2 : pyfloat) (pos_label y : Z) (sub1 sub2 : DataFrame) :
  Forall2 (Spec.dominates θ1 θ2) sub1 sub2 →
  0 ≤ Spec.wsum (Spec.cell θ2 pos_label 1 y) sub2
    ≤ Spec.wsum (Spec.cell θ1 pos_label 1 y) sub1 ∧
  Spec.wsum (Spec.cell θ1 pos_label 1 y) sub1
    + Spec.wsum (Spec.cell θ1 pos_label 0 y) sub1
  = Spec.wsum (Spec.cell θ2 pos_label 1 y) sub2
    + Spec.wsum (Spec.cell θ2 pos_label 0 y) sub2 ∧
  0 ≤ Spec.wsum (Spec.cell θ1 pos_label 0 y) sub1.
Proof.
  induction 1 as [|r1 r2 sub1 sub2 (Hl & _ & Hp) _ IH]; [done|].
  rewrite !wsum_cons, !cell_row, Hl.
  destruct (ge (r_pred r2) θ2) eqn:E2.
  - rewrite Hp by done.
    destruct (Z.b2z (bool_decide (r_label r1 = Some pos_label)) =? y);
      simpl; lia.
  - destruct (ge (r_pred r1) θ1),
      (Z.b2z (bool_decide (r_label r1 = Some pos_label)) =? y); simpl; lia.
Qed.

Lemma ratio_monotone (n1 n2 d : Z) :
  0 ≤ n2 ≤ n1 → 0 ≤ d → ge (Spec.ratio n1 d) (Spec.ratio n2 d) = true.
Proof.
  intros Hn Hd. unfold Spec.ratio. case_decide; apply ge_fin; [lra|].
  unfold Qdiv. apply Qmult_le_compat_r.
  - rewrite <-Zle_Qle. lia.
  - apply Qinv_le_0_compat. replace 0%Q with (inject_Z 0) by done.
    rewrite <-Zle_Qle. lia.
Qed.

Section Engine.
Context `{External}.

(** What [group_body] returns, cell by cell. *)
Lemma group_body_inv eng pos_label sub m :
  group_body eng pos_label sub = Returned m →
  let c := Spec.group_confusion (threshold eng) pos_label sub in
  count m = Z.of_nat (length sub) ∧
  rate (TP c) (TP c + FN c) = Returned (tpr m) ∧
  rate (FP c) (FP c + TN c) = Returned (fpr m) ∧
  rate (TN c) (TN c + FP c) = Returned (tnr m) ∧
  rate (FN c) (FN c + TP c) = Returned (fnr m) ∧
  rate (TP c) (TP c + FP c) = Returned (precision m) ∧
  recall m = tpr m ∧
  f1_of (precision m) (recall m) = Returned (f1_score m) ∧
  approval_rate m =
    (if 0 <? Z.of_nat (length sub) then mean (y_pred_of (threshold eng) sub)
     else NaN) ∧
  approval_rate_ci m = None.
Proof.
  unfold group_body, Spec.group_confusion. cbv zeta.
  set (c := confusion _ _).
  destruct (rate (TP c) (TP c + FN c)) as [v1|]; [|done].
  destruct (rate (FP c) (FP c + TN c)) as [v2|]; [|done].
  destruct (rate (TN c) (TN c + FP c)) as [v3|]; [|done].
  destruct (rate (FN c) (FN c + TP c)) as [v4|]; [|done].
  destruct (rate (TP c) (TP c + FP c)) as [v5|]; [|done].
  simpl. destruct (f1_of v5 v1) as [v6|] eqn:Hf1; [|done].
  simpl. intros [= <-]. simpl. by rewrite Hf1.
Qed.

Lemma group_body_returns eng pos_label sub :
  ∃ m, group_body eng pos_label sub = Returned m.
Proof.
  unfold group_body. cbv zeta.
  set (c := confusion _ _).
  destruct (rate_returns (TP c) (TP c + FN c)) as [q1 ->].
  destruct (rate_returns (FP c) (FP c + TN c)) as [q2 ->].
  destruct (rate_returns (TN c) (TN c + FP c)) as [q3 ->].
  destruct (rate_returns (FN c) (FN c + TP c)) as [q4 ->].
  destruct (rate_returns (TP c) (TP c + FP c)) as [q5 ->].
  simpl. destruct (f1_of_returns (Fin q5) (Fin q1)) as [v ->].
  simpl. by eexists.
Qed.

(** ** The loop over the groups *)

Lemma group_loop_spec eng pos_label groups results st :
  ∃ res st',
    group_loop eng pos_label groups results st = (Returned res, st') ∧
    (∀ g, is_Some (res !! g) ↔ g ∈ groups.*1 ∨ is_Some (results !! g)) ∧
    (∀ g m, res !! g = Some m →
       (∃ sub m0, (g, sub) ∈ groups ∧
                  group_body eng pos_label sub = Returned m0 ∧
                  m = set_ci m0 (approval_rate_ci m))
       ∨ results !! g = Some m).
Proof.
  revert results st. induction groups as [|[g sub] groups IH]; intros results st.
  - exists results, st. simpl. split_and!; [done| |by right].
    intros g. split; [by right|]. intros [Hg|?]; [|done].
    by apply elem_of_nil in Hg.
  - simpl. destruct (group_body_returns eng pos_label sub) as [m0 Hm0].
    rewrite Hm0.
    destruct (approval_ci_of eng (y_pred_of (threshold eng) sub) st)
      as [ci st1].
    destruct (IH (<[g := set_ci m0 ci]> results) st1)
      as (res & st' & -> & Hdom & Hval).
    exists res, st'. split_and!; [done| |].
    + intros k. rewrite Hdom, elem_of_cons, lookup_insert_is_Some.
      destruct (decide (g = k)) as [->|Hne]; [tauto|].
      split.
      * intros [?|[?|[_ ?]]]; [tauto|congruence|tauto].
      * intros [[?|?]|?]; [congruence|tauto|]. right. right. done.
    + intros k m Hk. destruct (Hval k m Hk) as [(s & m1 & Hin & Hb & Hm)|Hk'].
      * left. exists s, m1. split_and!; [by right|done|done].
      * apply lookup_insert_Some in Hk' as [[<- <-]|[_ Hk']]; [|by right].
        left. exists sub, m0. split_and!; [left|done|done].
Qed.

Lemma compute_group_metrics_spec eng df pos_label st :
  ∃ res st',
    compute_group_metrics eng df pos_label st = (Returned res, st') ∧
    (∀ g, is_Some (res !! g) ↔ g ∈ group_keys df) ∧
    (∀ g m, res !! g = Some m →
       ∃ m0, group_body eng pos_label (Spec.rows_of g df) = Returned m0 ∧
             m = set_ci m0 (approval_rate_ci m)).
Proof.
  unfold compute_group_metrics.
  destruct (group_loop_spec eng pos_label (groupby df) ∅ st)
    as (res & st' & Heq & Hdom & Hval).
  exists res, st'. split_and!; [done| |].
  - intros g. rewrite Hdom, groupby_keys, lookup_empty.
    split; [intros [?|[? ?]]; done|by left].
  - intros g m Hg. destruct (Hval g m Hg) as [(sub & m0 & Hin & Hb & Hm)|?];
      [|done].
    apply elem_of_groupby in Hin as [_ ->]. by exists m0.
Qed.

(** The five rates of a group, read off the result. *)
Lemma lookup_rates eng df pos_label st results st' g m :
  compute_group_metrics eng df pos_label st = (Returned results, st') →
  results !! g = Some m →
  tpr m = Spec.ratio
            (TP (Spec.group_confusion (threshold eng) pos_label (Spec.rows_of g df)))
            (TP (Spec.group_confusion (threshold eng) pos_label (Spec.rows_of g df))
             + FN (Spec.group_confusion (threshold eng) pos_label (Spec.rows_of g df))) ∧
  fpr m = Spec.ratio
            (FP (Spec.group_confusion (threshold eng) pos_label (Spec.rows_of g df)))
            (FP (Spec.group_confusion (threshold eng) pos_label (Spec.rows_of g df))
             + TN (Spec.group_confusion (threshold eng) pos_label (Spec.rows_of g df))) ∧
  tnr m = Spec.ratio
            (TN (Spec.group_confusion (threshold eng) pos_label (Spec.rows_of g df)))
            (TN (Spec.group_confusion (threshold eng) pos_label (Spec.rows_of g df))
             + FP (Spec.group_confusion (threshold eng) pos_label (Spec.rows_of g df))) ∧
  fnr m = Spec.ratio
            (FN (Spec.group_confusion (threshold eng) pos_label (Spec.rows_of g df)))
            (FN (Spec.group_confusion (threshold eng) pos_label (Spec.rows_of g df))
             + TP (Spec.group_confusion (threshold eng) pos_label (Spec.rows_of g df))) ∧
  precision m = Spec.ratio
            (TP (Spec.group_confusion (threshold eng) pos_label (Spec.rows_of g df)))
            (TP (Spec.group_confusion (threshold eng) pos_label (Spec.rows_of g df))
             + FP (Spec.group_confusion (threshold eng) pos_label (Spec.rows_of g df))).
Proof.
  intros Heq Hg.
  destruct (compute_group_metrics_spec eng df pos_label st)
    as (res & st1 & Heq' & _ & Hval).
  rewrite Heq in Heq'. injection Heq' as <- <-.
  destruct (Hval g m Hg) as (m0 & Hb & ->).
  apply group_body_inv in Hb as (_ & H1 & H2 & H3 & H4 & H5 & _).
  destruct (confusion_nonneg (threshold eng) pos_label (Spec.rows_of g df))
    as (? & ? & ? & ?).
  rewrite rate_ratio in H1, H2, H3, H4, H5 by lia.
  simpl. by simplify_eq.
Qed.

(** C1. For every table, threshold and generator state the engine returns
    a result, and in the metrics of every group each of TPR, FPR, TNR, FNR
    and precision is 0.0 when its denominator (TP+FN, FP+TN, TN+FP, FN+TP,
    TP+FP) is zero and the count ratio otherwise. *)
Theorem C1_rates_zero_denominator eng df pos_label st :
  ∃ results st',
    compute_group_metrics eng df pos_label st = (Returned results, st') ∧
    ∀ g m, results !! g = Some m →
      let c := Spec.group_confusion (threshold eng) pos_label
                 (Spec.rows_of g df) in
      tpr m = Spec.ratio (TP c) (TP c + FN c) ∧
      fpr m = Spec.ratio (FP c) (FP c + TN c) ∧
      tnr m = Spec.ratio (TN c) (TN c + FP c) ∧
      fnr m = Spec.ratio (FN c) (FN c + TP c) ∧
      precision m = Spec.ratio (TP c) (TP c + FP c).
Proof.
  destruct (compute_group_metrics_spec eng df pos_label st)
    as (res & st' & Heq & _).
  exists res, st'. split; [done|]. intros g m Hg c.
  by apply (lookup_rates eng df pos_label st res st').
Qed.

(** C2 (amended). For every table and every threshold, the sums of the
    per-group TP, FP, TN and FN over the groups are the counters of the
    rows that carry a group tag, which is the whole table when no tag is
    null; the groups of the result are the distinct tags, and each group's
    count is the number of rows with that tag, each of them in exactly one
    of the four cells. *)
Theorem C2_groups_partition_tagged_rows eng df pos_label st :
  let θ := threshold eng in
  let whole := Spec.group_confusion θ pos_label (Spec.tagged df) in
  Spec.total_over TP θ pos_label (groupby df) = TP whole ∧
  Spec.total_over FP θ pos_label (groupby df) = FP whole ∧
  Spec.total_over TN θ pos_label (groupby df) = TN whole ∧
  Spec.total_over FN θ pos_label (groupby df) = FN whole ∧
  ((∀ r, r ∈ df → is_Some (r_group r)) → Spec.tagged df = df) ∧
  ∃ results st',
    compute_group_metrics eng df pos_label st = (Returned results, st') ∧
    (∀ g, is_Some (results !! g) ↔ ∃ r, r ∈ df ∧ r_group r = Some g) ∧
    ∀ g m, results !! g = Some m →
      let c := Spec.group_confusion θ pos_label (Spec.rows_of g df) in
      count m = Z.of_nat (length (Spec.rows_of g df)) ∧
      count m = TP c + FP c + TN c + FN c.
Proof.
  intros θ whole.
  destruct (total_over_tagged θ pos_label df) as (H1 & H2 & H3 & H4).
  split_and!; [done..|apply tagged_all|].
  destruct (compute_group_metrics_spec eng df pos_label st)
    as (res & st' & Heq & Hdom & Hval).
  exists res, st'. split_and!; [done| |].
  - intros g. by rewrite Hdom, elem_of_group_keys.
  - intros g m Hg c. destruct (Hval g m Hg) as (m0 & Hb & ->).
    apply group_body_inv in Hb as (Hc & _).
    change (count (set_ci m0 _)) with (count m0). rewrite Hc.
    split; [done|]. symmetry. apply confusion_total.
Qed.

(** C4 (amended). The engine declares no threshold error and checks no
    range: for every threshold, inside or outside [0,1] or NaN, the engine
    is constructed with that threshold and [compute_group_metrics] returns
    a result. *)
Theorem C4_no_threshold_check θ enabled df pos_label st :
  ∃ eng results st',
    MetricsEngine_init θ enabled = Returned eng ∧
    threshold eng = θ ∧
    compute_group_metrics eng df pos_label st = (Returned results, st').
Proof.
  eexists. unfold MetricsEngine_init.
  destruct (compute_group_metrics_spec
              {| threshold := θ; bootstrap_ci_enabled := enabled |}
              df pos_label st) as (res & st' & Heq & _).
  exists res, st'. split_and!; [done|done|exact Heq].
Qed.

(** ** A run on at most one group *)

Lemma evaluate_fairness_single eng pos_label (df : DataFrame) st :
  (length (group_keys df) ≤ 1)%nat →
  (∃ zs, astype_int_all (map r_pred df) = Returned zs) →
  ∃ ev st', evaluate_fairness eng pos_label df st = (Returned ev, st') ∧
            ev_fairness_metrics ev = ∅ ∧ ev_flags ev = [].
Proof.
  intros Hone [zs Hzs]. unfold evaluate_fairness.
  destruct (compute_group_metrics_spec eng df pos_label st)
    as (res & st' & -> & Hdom & _).
  rewrite Hzs. cbn [bind].
  rewrite compute_fairness_metrics_small.
  2:{ apply Nat.le_lt_trans with (length (group_keys df)); [|lia].
      apply size_le_keys. intros g. apply Hdom. }
  cbn [bind]. rewrite identify_flags_empty. cbn [bind]. by eexists _, _.
Qed.

(** C10. A run whose table has at most one group (so exactly one group is
    covered) succeeds with an empty disparity dict, an empty flag list and
    the assessment 'PASS', in the returned summary and in summary.json:
    every rule of [identify_flags] reads its metric with a default that
    does not trigger. *)
Theorem C10_single_group_passes θ pos_label (df : DataFrame)
    (probabilities : list pyfloat) st :
  length probabilities = length df →
  (length (group_keys df) ≤ 1)%nat →
  identify_flags ∅ = Returned [] ∧
  ∃ summary summary_json st',
    run_evaluation θ pos_label df probabilities st
      = (Success summary summary_json, st') ∧
    sm_fairness_metrics summary = ∅ ∧
    sm_flags summary = [] ∧
    sm_assessment summary = "PASS" ∧
    sm_flags summary_json = [] ∧
    sm_assessment summary_json = "PASS".
Proof.
  intros Hlen Hone. split; [apply identify_flags_empty|].
  unfold run_evaluation, MetricsEngine_init.
  destruct (run_inference_rows θ df probabilities Hlen) as (df' & -> & Hrows).
  destruct (evaluate_fairness_single
              {| threshold := θ; bootstrap_ci_enabled := true |}
              pos_label df' st) as (ev & st' & -> & Hfm & Hflags).
  - erewrite Forall2_same_keys; [exact Hone| |exact Hrows].
    by intros r r' (_ & ? & _).
  - exists (map (λ r, Z.b2z (ge (r_prob r) θ)) df').
    apply astype_int_all_fmap.
    clear -Hrows. induction Hrows as [|r r' df df' Hr _ IH]; [done|].
    simpl. constructor; [|done].
    destruct Hr as (_ & _ & p & <- & ->). apply astype_int_01.
  - eexists _, _, _. split; [done|]. simpl. rewrite Hfm, Hflags. done.
Qed.

(** ** Monotonicity in the threshold *)

Lemma rates_monotone eng1 eng2 pos_label (df1 df2 : DataFrame) st1 st2 :
  Forall2 (Spec.dominates (threshold eng1) (threshold eng2)) df1 df2 →
  ∃ res1 res2 st1' st2',
    compute_group_metrics eng1 df1 pos_label st1 = (Returned res1, st1') ∧
    compute_group_metrics eng2 df2 pos_label st2 = (Returned res2, st2') ∧
    ∀ g, match res1 !! g, res2 !! g with
         | Some m1, Some m2 =>
             ge (tpr m1) (tpr m2) = true ∧ ge (fpr m1) (fpr m2) = true
         | None, None => True
         | _, _ => False
         end.
Proof.
  intros Hdom.
  destruct (compute_group_metrics_spec eng1 df1 pos_label st1)
    as (res1 & st1' & Heq1 & Hdom1 & _).
  destruct (compute_group_metrics_spec eng2 df2 pos_label st2)
    as (res2 & st2' & Heq2 & Hdom2 & _).
  exists res1, res2, st1', st2'. split_and!; [done|done|]. intros g.
  assert (group_keys df2 = group_keys df1) as Hkeys.
  { eapply Forall2_same_keys; [|exact Hdom]. by intros r r' (_ & ? & _). }
  specialize (Hdom1 g). specialize (Hdom2 g). rewrite Hkeys in Hdom2.
  destruct (res1 !! g) as [m1|] eqn:E1, (res2 !! g) as [m2|] eqn:E2.
  - destruct (lookup_rates _ _ _ _ _ _ g m1 Heq1 E1) as (-> & -> & _).
    destruct (lookup_rates _ _ _ _ _ _ g m2 Heq2 E2) as (-> & -> & _).
    pose proof (rows_of_dominates _ _ g _ _ Hdom) as Hg.
    destruct (confusion_cells (threshold eng1) pos_label (Spec.rows_of g df1))
      as (-> & -> & -> & ->).
    destruct (confusion_cells (threshold eng2) pos_label (Spec.rows_of g df2))
      as (-> & -> & -> & ->).
    destruct (cells_dominates _ _ pos_label 1 _ _ Hg) as (Ht & Htd & Ht0).
    destruct (cells_dominates _ _ pos_label 0 _ _ Hg) as (Hf & Hfd & Hf0).
    rewrite <-Htd, <-Hfd. split; apply ratio_monotone; lia.
  - assert (is_Some (@None PerGroupMetrics)) as [? ?]; [|done].
    apply Hdom2, Hdom1. by eexists.
  - assert (is_Some (@None PerGroupMetrics)) as [? ?]; [|done].
    apply Hdom1, Hdom2. by eexists.
  - done.
Qed.

(** C5. Threshold monotonicity.  A score equal to the threshold is
    predicted positive.  For thresholds θ1 ≤ θ2 and a fixed table of
    labels, tags and scores, the engine run on the predictions made at θ2
    has the same groups as the one run on the predictions made at θ1, and
    for each group its TPR and its FPR are at most those at θ1.  The same
    holds when the engine reads one fixed prediction column at θ1 and at
    θ2. *)
Theorem C5_threshold_monotone (θ1 θ2 : pyfloat) (e1 e2 : bool) pos_label
    (df : DataFrame) (probabilities : list pyfloat) st1 st2 :
  ge θ2 θ1 = true →
  length probabilities = length df →
  (∀ q : Q, predict [Fin q] (Fin q) = [1]) ∧
  (∃ df1 df2 res1 res2 st1' st2',
     run_inference θ1 df probabilities = Returned df1 ∧
     run_inference θ2 df probabilities = Returned df2 ∧
     compute_group_metrics {| threshold := θ1; bootstrap_ci_enabled := e1 |}
       df1 pos_label st1 = (Returned res1, st1') ∧
     compute_group_metrics {| threshold := θ2; bootstrap_ci_enabled := e2 |}
       df2 pos_label st2 = (Returned res2, st2') ∧
     ∀ g, match res1 !! g, res2 !! g with
          | Some m1, Some m2 =>
              ge (tpr m1) (tpr m2) = true ∧ ge (fpr m1) (fpr m2) = true
          | None, None => True
          | _, _ => False
          end) ∧
  (∃ res1 res2 st1' st2',
     compute_group_metrics {| threshold := θ1; bootstrap_ci_enabled := e1 |}
       df pos_label st1 = (Returned res1, st1') ∧
     compute_group_metrics {| threshold := θ2; bootstrap_ci_enabled := e2 |}
       df pos_label st2 = (Returned res2, st2') ∧
     ∀ g, match res1 !! g, res2 !! g with
          | Some m1, Some m2 =>
              ge (tpr m1) (tpr m2) = true ∧ ge (fpr m1) (fpr m2) = true
          | None, None => True
          | _, _ => False
          end).
Proof.
  intros Hge Hlen. split_and!.
  - intros q. unfold predict. simpl.
    by rewrite (proj2 (Qle_bool_iff q q) (Qle_refl q)).
  - rewrite !run_inference_eq by done.
    destruct (rates_monotone
                {| threshold := θ1; bootstrap_ci_enabled := e1 |}
                {| threshold := θ2; bootstrap_ci_enabled := e2 |}
                pos_label
                (zip_with (Spec.scored θ1) df probabilities)
                (zip_with (Spec.scored θ2) df probabilities) st1 st2)
      as (res1 & res2 & st1' & st2' & H1 & H2 & Hmono).
    { by apply scored_table_dominates. }
    by eexists _, _, res1, res2, st1', st2'.
  - apply rates_monotone. by apply same_table_dominates.
Qed.

(** ** The generator state *)

Lemma approval_ci_of_disabled eng y_pred st :
  bootstrap_ci_enabled eng = false → approval_ci_of eng y_pred st = (None, st).
Proof. intros Hoff. unfold approval_ci_of. by rewrite Hoff. Qed.

Lemma group_loop_disabled eng pos_label groups results :
  bootstrap_ci_enabled eng = false →
  ∃ res, ∀ st, group_loop eng pos_label groups results st = (Returned res, st).
Proof.
  intros Hoff. revert results.
  induction groups as [|[g sub] groups IH]; intros results; simpl.
  - by exists results.
  - destruct (group_body_returns eng pos_label sub) as [m0 ->].
    destruct (IH (<[g := set_ci m0 None]> results)) as [res Hres].
    exists res. intros st. by rewrite approval_ci_of_disabled.
Qed.

Lemma group_loop_without_ci eng pos_label groups results1 results2 st1 st2 :
  Spec.without_ci results1 = Spec.without_ci results2 →
  ∃ res1 res2 st1' st2',
    group_loop eng pos_label groups results1 st1 = (Returned res1, st1') ∧
    group_loop eng pos_label groups results2 st2 = (Returned res2, st2') ∧
    Spec.without_ci res1 = Spec.without_ci res2.
Proof.
  revert results1 results2 st1 st2.
  induction groups as [|[g sub] groups IH]; intros r1 r2 st1 st2 Hr; simpl.
  - by exists r1, r2, st1, st2.
  - destruct (group_body_returns eng pos_label sub) as [m0 ->].
    destruct (approval_ci_of eng _ st1) as [ci1 s1].
    destruct (approval_ci_of eng _ st2) as [ci2 s2].
    apply IH. unfold Spec.without_ci in *. rewrite !fmap_insert. by rewrite Hr.
Qed.

(** The generator reaches the group metrics through the bootstrap interval
    alone: from any two generator states the results agree in every cell
    but approval_rate_ci, and with the bootstrap disabled the result does
    not depend on the state, which is left untouched. *)
Theorem generator_touches_only_the_interval :
  (∀ eng df pos_label st1 st2,
     ∃ res1 res2 st1' st2',
       compute_group_metrics eng df pos_label st1 = (Returned res1, st1') ∧
       compute_group_metrics eng df pos_label st2 = (Returned res2, st2') ∧
       Spec.without_ci res1 = Spec.without_ci res2) ∧
  (∀ eng df pos_label,
     bootstrap_ci_enabled eng = false →
     ∃ res, ∀ st,
       compute_group_metrics eng df pos_label st = (Returned res, st)).
Proof.
  split.
  - intros eng df pos_label st1 st2. by apply group_loop_without_ci.
  - intros eng df pos_label Hoff. by apply group_loop_disabled.
Qed.

End Engine.

(** ** The engine run on concrete tables *)

Section Runs.
Import Reference Examples.

(** At the threshold 2.0, outside [0,1], nothing is raised: the engine is
    built and returns metrics, with no row predicted positive. *)
Lemma C4_threshold_two_is_accepted :
  MetricsEngine_init (Fin 2) true = Returned (engine (Fin 2)) ∧
  (∀ e, MetricsEngine_init (Fin 2) true ≠ Raised e) ∧
  (∀ e, (compute_group_metrics (engine (Fin 2)) small_table 1 (0 : Z)).1
        ≠ Raised e) ∧
  ∃ results st',
    compute_group_metrics (engine (Fin 2)) small_table 1 (0 : Z)
      = (Returned results, st') ∧
    approval_rate <$> results !! "A" = Some (Fin (0 # 3)) ∧
    approval_rate <$> results !! "B" = Some (Fin 0).
Proof.
  split_and!; [done|done| |].
  - intros e. vm_compute. discriminate.
  - eexists _, _. split_and!; vm_compute; reflexivity.
Qed.

(** Two groups in which nobody is approved have equal approval rates, and
    the ratio returned is 0.0, not 1; the disparate-impact rule fires. *)
Lemma C6_equal_zero_rates_ratio_is_zero :
  ∃ gm st' fm,
    compute_group_metrics (engine half) none_approved_table 1 (0 : Z)
      = (Returned gm, st') ∧
    size gm = 2%nat ∧
    approval_rate <$> gm !! "A" = Some (Fin 0) ∧
    approval_rate <$> gm !! "B" = Some (Fin 0) ∧
    compute_fairness_metrics gm = Returned fm ∧
    fm !! "demographic_parity_difference" = Some (Fin (0 - 0)) ∧
    fm !! "demographic_parity_ratio" = Some (Fin 0) ∧
    ¬ (Fin 0 =f Fin 1) ∧
    identify_flags fm = Returned ["Disparate impact ratio = 0.000 < 0.8"].
Proof.
  eexists _, _, _. split_and!; try (vm_compute; reflexivity).
  intros Heq. apply feq_fin in Heq. vm_compute in Heq. discriminate.
Qed.

(** *** The theorems with hypotheses, applied *)

Lemma C3_fairness_metrics_witness :
  ∃ ar_max ar_min tpr_max tpr_min fpr_max fpr_min ratio odds fm,
    Spec.max_over approval_rate two_groups ar_max ∧
    Spec.min_over approval_rate two_groups ar_min ∧
    Spec.max_over tpr two_groups tpr_max ∧
    Spec.min_over tpr two_groups tpr_min ∧
    Spec.max_over fpr two_groups fpr_max ∧
    Spec.min_over fpr two_groups fpr_min ∧
    compute_fairness_metrics two_groups = Returned fm ∧
    fm !! "demographic_parity_difference" = Some (Fin (ar_max - ar_min)) ∧
    fm !! "demographic_parity_ratio" = Some (Fin ratio) ∧
    ((0 < ar_max)%Q → ratio = (ar_min / ar_max)%Q) ∧
    ((ar_max <= 0)%Q → ratio = 0%Q) ∧
    fm !! "equal_opportunity_difference" = Some (Fin (tpr_max - tpr_min)) ∧
    fm !! "equalized_odds_difference" = Some (Fin odds) ∧
    (odds = (tpr_max - tpr_min)%Q ∨ odds = (fpr_max - fpr_min)%Q) ∧
    (tpr_max - tpr_min <= odds)%Q ∧ (fpr_max - fpr_min <= odds)%Q ∧
    fm !! "disparate_impact" = Some (Fin ratio).
Proof.
  apply C3_fairness_metrics.
  - vm_compute. lia.
  - intros g m Hg. unfold two_groups in Hg.
    apply lookup_insert_Some in Hg as [[_ <-]|[_ Hg]]; [done|].
    apply lookup_insert_Some in Hg as [[_ <-]|[_ Hg]]; [done|].
    by rewrite lookup_empty in Hg.
Defined.

Lemma C6_parity_ratio_bounds_witness :
  ∃ ar_max ar_min diff ratio fm,
    Spec.max_over approval_rate two_groups ar_max ∧
    Spec.min_over approval_rate two_groups ar_min ∧
    compute_fairness_metrics two_groups = Returned fm ∧
    fm !! "demographic_parity_difference" = Some (Fin diff) ∧
    fm !! "demographic_parity_ratio" = Some (Fin ratio) ∧
    (0 <= ratio)%Q ∧ (ratio <= 1)%Q ∧
    ((0 < ar_max)%Q → (ratio == ar_min / ar_max)%Q) ∧
    ((ar_max == 0)%Q → (ratio == 0)%Q) ∧
    ((∀ g1 m1 g2 m2, two_groups !! g1 = Some m1 → two_groups !! g2 = Some m2 →
        approval_rate m1 =f approval_rate m2) →
     (diff == 0)%Q ∧
     ((0 < ar_max)%Q → (ratio == 1)%Q) ∧
     ((ar_max == 0)%Q → (ratio == 0)%Q)).
Proof.
  apply C6_parity_ratio_bounds.
  - vm_compute. lia.
  - intros g m Hg. unfold two_groups in Hg.
    apply lookup_insert_Some in Hg as [[_ <-]|[_ Hg]].
    { exists (1 # 2). split_and!; [reflexivity|lra|lra]. }
    apply lookup_insert_Some in Hg as [[_ <-]|[_ Hg]].
    { exists (1 # 5). split_and!; [reflexivity|lra|lra]. }
    by rewrite lookup_empty in Hg.
Defined.

Lemma C9_fewer_than_two_groups_witness :
  compute_fairness_metrics one_group = Returned ∅ ∧
  ∀ e, compute_fairness_metrics one_group ≠ Raised e.
Proof.
  apply C9_fewer_than_two_groups. vm_compute. lia.
Defined.

Lemma C5_threshold_monotone_witness :
  (∀ q : Q, predict [Fin q] (Fin q) = [1]) ∧
  (∃ df1 df2 res1 res2 st1' st2',
     run_inference (Fin (1 # 4)) small_table small_scores = Returned df1 ∧
     run_inference (Fin (3 # 4)) small_table small_scores = Returned df2 ∧
     compute_group_metrics (engine (Fin (1 # 4))) df1 1 (0 : Z)
       = (Returned res1, st1') ∧
     compute_group_metrics (engine (Fin (3 # 4))) df2 1 (0 : Z)
       = (Returned res2, st2') ∧
     ∀ g, match res1 !! g, res2 !! g with
          | Some m1, Some m2 =>
              ge (tpr m1) (tpr m2) = true ∧ ge (fpr m1) (fpr m2) = true
          | None, None => True
          | _, _ => False
          end) ∧
  (∃ res1 res2 st1' st2',
     compute_group_metrics (engine (Fin (1 # 4))) small_table 1 (0 : Z)
       = (Returned res1, st1') ∧
     compute_group_metrics (engine (Fin (3 # 4))) small_table 1 (0 : Z)
       = (Returned res2, st2') ∧
     ∀ g, match res1 !! g, res2 !! g with
          | Some m1, Some m2 =>
              ge (tpr m1) (tpr m2) = true ∧ ge (fpr m1) (fpr m2) = true
          | None, None => True
          | _, _ => False
          end).
Proof.
  apply (C5_threshold_monotone (H := reference_external)
           (Fin (1 # 4)) (Fin (3 # 4)) true true 1
           small_table small_scores 0 0).
  - reflexivity.
  - reflexivity.
Defined.

Lemma C10_single_group_passes_witness :
  identify_flags ∅ = Returned [] ∧
  ∃ summary summary_json st',
    run_evaluation half 1 single_group_table single_group_scores (0 : Z)
      = (Success summary summary_json, st') ∧
    sm_fairness_metrics summary = ∅ ∧
    sm_flags summary = [] ∧
    sm_assessment summary = "PASS" ∧
    sm_flags summary_json = [] ∧
    sm_assessment summary_json = "PASS".
Proof.
  apply C10_single_group_passes.
  - reflexivity.
  - vm_compute. lia.
Defined.

End Runs.

End LoanFacts.

(** * Properties of the face pipeline *)

Module FaceFacts.
Import Py Face.

(** ** A frame of genuine pairs has no false match *)

Lemma both_eq_label_zero (g : list PairRow) (y : Z) :
  Forall (λ p, p_label p = 1) g →
  sum (both_eq (map p_label g) 0 (map p_prediction g) y) = 0 ∧
  length (both_eq (map p_label g) 0 (map p_prediction g) y) = length g.
Proof.
  induction 1 as [|p g Hp _ [IH1 IH2]]; [done|].
  simpl. rewrite Hp, IH1, IH2. done.
Qed.

Lemma FMR_genuine (g : list PairRow) :
  g ≠ [] → Forall (λ p, p_label p = 1) g → FMR (metrics_of g) =f Fin 0.
Proof.
  intros Hne Hall. unfold metrics_of. cbn [FMR].
  destruct (both_eq_label_zero g 1 Hall) as [Hsum Hlen].
  unfold mean. destruct (both_eq _ _ _ _) as [|z l] eqn:E.
  - destruct g; [done|]. simpl in Hlen. lia.
  - rewrite Hsum. simpl feq. unfold Qdiv. apply Qmult_0_l.
Qed.

Lemma groupby_apply_lookup (col : PairRow → string) (df : list PairRow)
    (k : string) (m : Metrics) :
  groupby_apply col df !! k = Some m →
  m = metrics_of (filter (λ r, col r = k) df) ∧
  filter (λ r, col r = k) df ≠ [].
Proof.
  unfold groupby_apply. intros Hk%elem_of_list_to_map_2.
  apply list_elem_of_fmap in Hk as (k' & [= -> ->] & Hin).
  split; [done|].
  rewrite merge_sort_Permutation, elem_of_remove_dups in Hin.
  apply list_elem_of_fmap in Hin as (r & -> & Hr).
  intros Hnil. exact (filter_nil_not_elem_of _ df r Hnil eq_refl Hr).
Qed.

Lemma FMR_groupby (col : PairRow → string) (df : list PairRow)
    (k : string) (m : Metrics) :
  Forall (λ p, p_label p = 1) df →
  groupby_apply col df !! k = Some m → FMR m =f Fin 0.
Proof.
  intros Hall (-> & Hne)%groupby_apply_lookup.
  apply FMR_genuine; [done|].
  apply Forall_forall. intros p [_ Hp]%list_elem_of_filter.
  by eapply Forall_forall in Hall.
Qed.

Section Evaluator.
Context `{FaceExternal}.

(** ** Every recorded pair is genuine *)

Lemma add_genuine pairs group aug sim θ :
  Forall (λ p, p_label p = 1) pairs →
  Forall (λ p, p_label p = 1) (add pairs group aug 1 sim θ).
Proof.
  intros Hall. unfold add. apply Forall_app. split; [done|].
  by constructor.
Qed.

Lemma aug_loop_genuine group img orig_emb θ augs pairs w :
  Forall (λ p, p_label p = 1) pairs →
  Forall (λ p, p_label p = 1)
    (aug_loop group img orig_emb θ augs pairs w).1.1.
Proof.
  revert pairs w. induction augs as [|aug augs IH]; intros pairs w Hall; [done|].
  simpl. destruct (apply_augmentation img aug w) as [[aug_img|e] w1]; [|done].
  destruct (get_embedding aug_img w1) as [[[aug_emb|]|e] w2]; [| |done].
  - destruct (all_zero aug_emb); [by apply IH|].
    destruct (cosine_similarity orig_emb aug_emb) as [sim|e]; [|done].
    by apply IH, add_genuine.
  - by apply IH.
Qed.

Lemma process_image_genuine θ augs group s file :
  Forall (λ p, p_label p = 1) (ls_pairs s) →
  Forall (λ p, p_label p = 1) (ls_pairs (process_image θ augs group s file)).
Proof.
  intros Hall. unfold process_image. destruct file as [img|]; [|done].
  destruct (get_embedding img (ls_world s)) as [[[orig_emb|]|e] w1]; [| |done];
    [|done].
  destruct (all_zero orig_emb); [done|].
  pose proof (aug_loop_genuine group img orig_emb θ ("original" :: augs)
                (ls_pairs s) w1 Hall) as Hloop.
  destruct (aug_loop _ _ _ _ _ _ _) as [[pairs w2] [e|]]; done.
Qed.

Lemma process_group_genuine θ augs s g :
  Forall (λ p, p_label p = 1) (ls_pairs s) →
  Forall (λ p, p_label p = 1) (ls_pairs (process_group θ augs s g)).
Proof.
  unfold process_group. destruct g as [group files]. simpl. revert s.
  induction files as [|file files IH]; intros s Hall; [done|].
  simpl. by apply IH, process_image_genuine.
Qed.

Lemma collect_pairs_genuine θ augs
    (dataset : list (string * list (option Image))) w :
  Forall (λ p, p_label p = 1) (ls_pairs (collect_pairs θ augs dataset w)).
Proof.
  unfold collect_pairs.
  assert (Forall (λ p, p_label p = 1)
            (ls_pairs {| ls_pairs := []; ls_processed_images := 0;
                         ls_world := w |})) as Hinit by constructor.
  revert Hinit. generalize ({| ls_pairs := []; ls_processed_images := 0;
                               ls_world := w |}).
  induction dataset as [|g dataset IH]; intros s Hall; [done|].
  simpl. by apply IH, process_group_genuine.
Qed.

(** ** One pair per entry of ["original"] + augmentations *)

Lemma apply_augmentation_original img w :
  apply_augmentation img "original" w = (Returned img, w).
Proof. done. Qed.

Lemma aug_loop_variants group img orig_emb θ augs pairs w vs w' :
  FaceSpec.variants img orig_emb augs w vs w' →
  aug_loop group img orig_emb θ augs pairs w
  = (pairs ++ FaceSpec.pairs_of group θ vs, w', None) ∧
  map (λ v, v.1.1.1) vs = augs.
Proof.
  intros Hvs. revert pairs.
  induction Hvs as [w|aug augs w aug_img w1 aug_emb w2 sim vs w' Ha He Hz Hs _ IH];
    intros pairs.
  - simpl. by rewrite app_nil_r.
  - simpl. rewrite Ha, He, Hz, Hs.
    destruct (IH (add pairs group aug 1 sim θ)) as [-> <-].
    split; [|done]. unfold add. by rewrite <-app_assoc.
Qed.

Lemma FMR_of_run θ augs (dataset : list (string * list (option Image))) w r w' :
  run_evaluation θ augs dataset w = (Returned r, w') →
  FMR (overall (detailed_metrics r)) =f Fin 0 ∧
  (∀ g m, by_group (detailed_metrics r) !! g = Some m → FMR m =f Fin 0) ∧
  (∀ a m, by_augmentation (detailed_metrics r) !! a = Some m →
          FMR m =f Fin 0).
Proof.
  intros Hrun. unfold run_evaluation in Hrun.
  destruct dataset as [|g dataset]; [done|].
  pose proof (collect_pairs_genuine θ augs (g :: dataset) w) as Hall.
  destruct (ls_processed_images _ =? 0); [done|].
  unfold compute_metrics in Hrun.
  destruct (ls_pairs (collect_pairs θ augs (g :: dataset) w))
    as [|p pairs] eqn:E; [done|].
  cbn [bind] in Hrun. injection Hrun as <- _.
  cbn [detailed_metrics overall by_group by_augmentation].
  split_and!.
  - by apply FMR_genuine.
  - intros k m. by apply FMR_groupby.
  - intros k m. by apply FMR_groupby.
Qed.

(** C7. What [run_evaluation] records for one image, against the claim of
    k pairs for k augmented variants.  When the image embeds into a usable
    vector [orig_emb] and each entry of ["original"] + augmentations is
    turned into an image, embedded and compared without failure, the image
    contributes exactly k+1 pairs, in that order, each labelled genuine
    (1), tagged with its group and holding the similarity of [orig_emb]
    with the embedding of that entry's image; the first entry is
    "original", whose image is the original itself, embedded a second time
    and compared with [orig_emb].  Whatever the collaborators do and
    whatever the threshold, a run that returns reports FMR = 0.0 for the
    whole frame, for every group and for every augmentation. *)
Theorem C7_original_is_paired_with_itself θ augs group s img orig_emb w1 vs w' :
  get_embedding img (ls_world s) = (Returned (Some orig_emb), w1) →
  all_zero orig_emb = false →
  FaceSpec.variants img orig_emb ("original" :: augs) w1 vs w' →
  process_image θ augs group s (Some img)
    = {| ls_pairs := ls_pairs s ++ FaceSpec.pairs_of group θ vs;
         ls_processed_images := ls_processed_images s + 1;
         ls_world := w' |} ∧
  length (FaceSpec.pairs_of group θ vs) = S (length augs) ∧
  map p_augmentation (FaceSpec.pairs_of group θ vs) = "original" :: augs ∧
  (∃ self_emb self_sim rest w2,
     vs = ("original", img, self_emb, self_sim) :: rest ∧
     get_embedding img w1 = (Returned (Some self_emb), w2) ∧
     cosine_similarity orig_emb self_emb = Returned self_sim ∧
     FaceSpec.variants img orig_emb augs w2 rest w') ∧
  (∀ (dataset : list (string * list (option Image))) w r w0,
     run_evaluation θ augs dataset w = (Returned r, w0) →
     FMR (overall (detailed_metrics r)) =f Fin 0 ∧
     (∀ g m, by_group (detailed_metrics r) !! g = Some m → FMR m =f Fin 0) ∧
     (∀ a m, by_augmentation (detailed_metrics r) !! a = Some m →
             FMR m =f Fin 0)).
Proof.
  intros Hemb Hzero Hvs.
  destruct (aug_loop_variants group img orig_emb θ ("original" :: augs)
              (ls_pairs s) w1 vs w' Hvs) as [Hloop Hnames].
  assert (map p_augmentation (FaceSpec.pairs_of group θ vs)
          = "original" :: augs) as Haugs.
  { rewrite <-Hnames. unfold FaceSpec.pairs_of.
    rewrite <-list_fmap_compose. done. }
  split_and!.
  - unfold process_image. by rewrite Hemb, Hzero, Hloop.
  - by rewrite <-(length_map p_augmentation), Haugs.
  - done.
  - inversion Hvs as [|aug augs0 w aug_img w2 aug_emb w3 sim rest w4 Ha He Hz Hs
                       Hrest]; subst.
    rewrite apply_augmentation_original in Ha. injection Ha as <- <-.
    by exists aug_emb, sim, rest, w3.
  - intros dataset w r w0. apply FMR_of_run.
Qed.

End Evaluator.

Section Runs.
Import Reference FaceSpec.

(** C7, at the input where the code leaves the claim: one image with three
    augmented variants yields four pairs, not three; the first one is the
    image against itself, tagged "original", with similarity 1. *)
Lemma C7_three_augmentations_four_pairs :
  let s := collect_pairs (Fin (1 # 2)) three_augmentations one_image () in
  length (ls_pairs s) = 4%nat ∧
  length (ls_pairs s) ≠ 3%nat ∧
  map p_augmentation (ls_pairs s)
    = ["original"; "flip"; "rotation"; "brightness"] ∧
  map p_label (ls_pairs s) = [1; 1; 1; 1] ∧
  map p_similarity (ls_pairs s) !! 0%nat = Some (Fin (4 # 4)).
Proof. vm_compute. split_and!; [done|lia|done..]. Qed.

Lemma C7_original_is_paired_with_itself_witness :
  process_image (Fin (1 # 2)) three_augmentations "male" start
    (Some [10; 20; 30])
    = {| ls_pairs := ls_pairs start
                     ++ pairs_of "male" (Fin (1 # 2)) toy_variants;
         ls_processed_images := ls_processed_images start + 1;
         ls_world := () |} ∧
  length (pairs_of "male" (Fin (1 # 2)) toy_variants)
    = S (length three_augmentations) ∧
  map p_augmentation (pairs_of "male" (Fin (1 # 2)) toy_variants)
    = "original" :: three_augmentations ∧
  (∃ self_emb self_sim rest w2,
     toy_variants = ("original", [10; 20; 30], self_emb, self_sim) :: rest ∧
     get_embedding (FaceExternal := toy_face) [10; 20; 30] ()
       = (Returned (Some self_emb), w2) ∧
     cosine_similarity (FaceExternal := toy_face) [1; 10; 20; 30] self_emb
       = Returned self_sim ∧
     variants (H := toy_face) [10; 20; 30] [1; 10; 20; 30]
       three_augmentations w2 rest ()) ∧
  (∀ (dataset : list (string * list (option (list Z)))) w r w0,
     run_evaluation (H := toy_face) (Fin (1 # 2)) three_augmentations dataset w
       = (Returned r, w0) →
     FMR (overall (detailed_metrics r)) =f Fin 0 ∧
     (∀ g m, by_group (detailed_metrics r) !! g = Some m → FMR m =f Fin 0) ∧
     (∀ a m, by_augmentation (detailed_metrics r) !! a = Some m →
             FMR m =f Fin 0)).
Proof.
  apply (C7_original_is_paired_with_itself (H := toy_face) (Fin (1 # 2))
           three_augmentations "male" start [10; 20; 30] [1; 10; 20; 30]
           () toy_variants ()).
  - reflexivity.
  - reflexivity.
  - unfold toy_variants, three_augmentations.
    repeat (eapply (variants_cons (H := toy_face)); [reflexivity..|]).
    apply (variants_nil (H := toy_face)).
Defined.

End Runs.
End FaceFacts.

(** * Further properties of the classification engine *)

Module LoanExtras.
Import Py Loan.

(** ** Counting rows *)

Lemma length_y_pred_of θ (sub : DataFrame) :
  length (y_pred_of θ sub) = length sub.
Proof. unfold y_pred_of. apply length_map. Qed.

Lemma sum_y_pred θ pos_label (sub : DataFrame) :
  sum (y_pred_of θ sub)
  = TP (Spec.group_confusion θ pos_label sub)
    + FP (Spec.group_confusion θ pos_label sub).
Proof.
  destruct (LoanFacts.confusion_cells θ pos_label sub) as (-> & -> & _).
  induction sub as [|r sub IH]; [done|].
  rewrite !LoanFacts.wsum_cons, !LoanFacts.cell_row.
  change (sum (y_pred_of θ (r :: sub)))
    with (Z.b2z (ge (r_pred r) θ) + sum (y_pred_of θ sub)).
  rewrite IH.
  destruct (ge (r_pred r) θ), (bool_decide (r_label r = Some pos_label));
    simpl; lia.
Qed.

Lemma arr_eq_map {A} (f g : A → Z) (l : list A) :
  arr_eq (map f l) (map g l) = map (λ r, Z.b2z (Z.eqb (f r) (g r))) l.
Proof. induction l as [|a l IH]; simpl; [done|]. by rewrite <-IH. Qed.

Lemma sum_arr_eq θ pos_label (sub : DataFrame) :
  sum (arr_eq (y_pred_of θ sub) (y_true_of pos_label sub))
  = TP (Spec.group_confusion θ pos_label sub)
    + TN (Spec.group_confusion θ pos_label sub) ∧
  length (arr_eq (y_pred_of θ sub) (y_true_of pos_label sub)) = length sub.
Proof.
  destruct (LoanFacts.confusion_cells θ pos_label sub) as (-> & _ & -> & _).
  unfold y_pred_of, y_true_of. rewrite arr_eq_map, length_map.
  split; [|done].
  induction sub as [|r sub IH]; [done|].
  rewrite !LoanFacts.wsum_cons, !LoanFacts.cell_row. simpl map. simpl sum.
  rewrite IH.
  destruct (ge (r_pred r) θ), (bool_decide (r_label r = Some pos_label));
    simpl; lia.
Qed.

Lemma positives_count θ pos_label (sub : DataFrame) :
  TP (Spec.group_confusion θ pos_label sub)
  + FN (Spec.group_confusion θ pos_label sub)
  = Z.of_nat (SpecMore.positives pos_label sub).
Proof.
  destruct (LoanFacts.confusion_cells θ pos_label sub) as (-> & _ & _ & ->).
  unfold SpecMore.positives.
  induction sub as [|r sub IH]; [done|].
  rewrite !LoanFacts.wsum_cons, !LoanFacts.cell_row, filter_cons.
  destruct (decide (r_label r = Some pos_label)) as [Hl|Hl].
  - rewrite bool_decide_eq_true_2 by done. simpl length.
    destruct (ge (r_pred r) θ); simpl; lia.
  - rewrite bool_decide_eq_false_2 by done.
    destruct (ge (r_pred r) θ); simpl; lia.
Qed.

Lemma negatives_count θ pos_label (sub : DataFrame) :
  FP (Spec.group_confusion θ pos_label sub)
  + TN (Spec.group_confusion θ pos_label sub)
  = Z.of_nat (SpecMore.negatives pos_label sub).
Proof.
  destruct (LoanFacts.confusion_cells θ pos_label sub) as (_ & -> & -> & _).
  unfold SpecMore.negatives.
  induction sub as [|r sub IH]; [done|].
  rewrite !LoanFacts.wsum_cons, !LoanFacts.cell_row, filter_cons.
  destruct (decide (r_label r = Some pos_label)) as [Hl|Hl].
  - rewrite bool_decide_eq_true_2 by done.
    rewrite decide_False by (intros ?; done).
    destruct (ge (r_pred r) θ); simpl; lia.
  - rewrite bool_decide_eq_false_2 by done. rewrite decide_True by done.
    simpl length. destruct (ge (r_pred r) θ); simpl; lia.
Qed.

Lemma mean_value (l : list Z) :
  l ≠ [] →
  mean l = Fin (inject_Z (sum l) / inject_Z (Z.of_nat (length l))).
Proof. by destruct l. Qed.

(** ** Ratios of counters *)

Lemma ratio_complement (a b : Z) :
  0 ≤ a → 0 ≤ b →
  ∃ x y, Spec.ratio a (a + b) = Fin x ∧ Spec.ratio b (b + a) = Fin y ∧
         (0 < a + b → (x + y == 1)%Q) ∧
         (a + b = 0 → x = 0%Q ∧ y = 0%Q).
Proof.
  intros Ha Hb. unfold Spec.ratio.
  destruct (decide (a + b = 0)) as [Hz|Hnz].
  - rewrite decide_True by lia. exists 0%Q, 0%Q. split_and!; [done|done|lia|done].
  - rewrite decide_False by lia. eexists _, _. split_and!; [done|done| |lia].
    intros _. replace (b + a) with (a + b) by lia.
    unfold Qdiv. rewrite <-Qmult_plus_distr_l, <-inject_Z_plus.
    apply Qmult_inv_r. intros Heq.
    apply (inject_Z_injective (a + b) 0) in Heq. lia.
Qed.

Lemma ratio_unit (n d : Z) :
  0 ≤ n ≤ d → SpecMore.unit_interval (Spec.ratio n d).
Proof.
  intros Hn. unfold Spec.ratio, SpecMore.unit_interval. case_decide.
  - exists 0%Q. split_and!; [done|lra|lra].
  - eexists. split; [done|].
    assert (0 < inject_Z d)%Q as Hd.
    { replace 0%Q with (inject_Z 0) by done. rewrite <-Zlt_Qlt. lia. }
    split.
    + apply Qle_shift_div_l; [done|]. rewrite Qmult_0_l.
      replace 0%Q with (inject_Z 0) by done. rewrite <-Zle_Qle. lia.
    + apply Qle_shift_div_r; [done|]. rewrite Qmult_1_l.
      rewrite <-Zle_Qle. lia.
Qed.

Lemma f1_of_unit (p r v : pyfloat) :
  SpecMore.unit_interval p → SpecMore.unit_interval r →
  f1_of p r = Returned v → SpecMore.unit_interval v.
Proof.
  intros (a & -> & Ha0 & Ha1) (b & -> & Hb0 & Hb1). unfold f1_of.
  destruct (gt (add (Fin a) (Fin b)) zero) eqn:E.
  - apply LoanFacts.gt_fin in E. simpl.
    rewrite LoanFacts.Qeq_bool_pos by done. intros [= <-].
    eexists. split; [done|].
    assert (0 <= a * b)%Q by (by apply Qmult_le_0_compat).
    assert (a * b <= a)%Q by nra.
    assert (a * b <= b)%Q by nra.
    split.
    + apply Qle_shift_div_l; [done|]. lra.
    + apply Qle_shift_div_r; [done|]. lra.
  - intros [= <-]. exists 0%Q. split_and!; [done|lra|lra].
Qed.

Section Engine.
Context `{External}.

Lemma group_body_accuracy eng pos_label sub m :
  group_body eng pos_label sub = Returned m →
  accuracy m =
    (if 0 <? Z.of_nat (length sub)
     then mean (arr_eq (y_pred_of (threshold eng) sub) (y_true_of pos_label sub))
     else NaN) ∧
  auc m = auc_of (y_true_of pos_label sub) (y_prob_of sub).
Proof.
  unfold group_body. cbv zeta.
  set (c := confusion _ _).
  destruct (rate (TP c) (TP c + FN c)) as [v1|]; [|done].
  destruct (rate (FP c) (FP c + TN c)) as [v2|]; [|done].
  destruct (rate (TN c) (TN c + FP c)) as [v3|]; [|done].
  destruct (rate (FN c) (FN c + TP c)) as [v4|]; [|done].
  destruct (rate (TP c) (TP c + FP c)) as [v5|]; [|done].
  simpl. destruct (f1_of v5 v1) as [v6|]; [|done].
  simpl. by intros [= <-].
Qed.

(** The cells of a group of the result, traced back to the rows of that
    group, which are never empty. *)
Lemma lookup_group eng df pos_label st results st' g m :
  compute_group_metrics eng df pos_label st = (Returned results, st') →
  results !! g = Some m →
  (0 < length (Spec.rows_of g df))%nat ∧
  ∃ m0, group_body eng pos_label (Spec.rows_of g df) = Returned m0 ∧
        m = set_ci m0 (approval_rate_ci m).
Proof.
  intros Heq Hg.
  destruct (LoanFacts.compute_group_metrics_spec eng df pos_label st)
    as (res & st1 & Heq' & Hdom & Hval).
  rewrite Heq in Heq'. injection Heq' as <- <-.
  split; [|by apply Hval].
  apply LoanFacts.rows_of_nonempty, Hdom. by eexists.
Qed.

(** In every group TPR + FNR = 1 when the group has a row with the
    positive label, and both are 0.0 when it has none; likewise
    FPR + TNR = 1 when the group has a row with another label, and both
    are 0.0 otherwise. *)
Theorem complementary_rates eng df pos_label st :
  ∃ results st',
    compute_group_metrics eng df pos_label st = (Returned results, st') ∧
    ∀ g m, results !! g = Some m →
      ∃ t fn f tn,
        tpr m = Fin t ∧ fnr m = Fin fn ∧ fpr m = Fin f ∧ tnr m = Fin tn ∧
        (SpecMore.positives pos_label (Spec.rows_of g df) ≠ 0%nat →
         (t + fn == 1)%Q) ∧
        (SpecMore.positives pos_label (Spec.rows_of g df) = 0%nat →
         t = 0%Q ∧ fn = 0%Q) ∧
        (SpecMore.negatives pos_label (Spec.rows_of g df) ≠ 0%nat →
         (f + tn == 1)%Q) ∧
        (SpecMore.negatives pos_label (Spec.rows_of g df) = 0%nat →
         f = 0%Q ∧ tn = 0%Q).
Proof.
  destruct (LoanFacts.compute_group_metrics_spec eng df pos_label st)
    as (res & st' & Heq & _).
  exists res, st'. split; [done|]. intros g m Hg.
  destruct (LoanFacts.lookup_rates eng df pos_label st res st' g m Heq Hg)
    as (-> & -> & -> & -> & _).
  destruct (LoanFacts.confusion_nonneg (threshold eng) pos_label
              (Spec.rows_of g df)) as (? & ? & ? & ?).
  pose proof (positives_count (threshold eng) pos_label (Spec.rows_of g df)).
  pose proof (negatives_count (threshold eng) pos_label (Spec.rows_of g df)).
  set (c := Spec.group_confusion _ _ _) in *.
  destruct (ratio_complement (TP c) (FN c)) as (t & fn & -> & -> & Ht & Ht0);
    [done..|].
  destruct (ratio_complement (FP c) (TN c)) as (f & tn & Hf1 & Hf2 & Hf & Hf0);
    [done..|].
  rewrite Hf1, Hf2.
  exists t, fn, f, tn. split_and!; try done.
  - intros ?. apply Ht. lia.
  - intros ?. apply Ht0. lia.
  - intros ?. apply Hf. lia.
  - intros ?. apply Hf0. lia.
Qed.

Lemma approval_accuracy_values eng df pos_label st results st' g m :
  compute_group_metrics eng df pos_label st = (Returned results, st') →
  results !! g = Some m →
  1 ≤ count m ∧
  count m = Z.of_nat (length (Spec.rows_of g df)) ∧
  approval_rate m
    = Fin (inject_Z
             (TP (Spec.group_confusion (threshold eng) pos_label (Spec.rows_of g df))
              + FP (Spec.group_confusion (threshold eng) pos_label (Spec.rows_of g df)))
           / inject_Z (count m)) ∧
  accuracy m
    = Fin (inject_Z
             (TP (Spec.group_confusion (threshold eng) pos_label (Spec.rows_of g df))
              + TN (Spec.group_confusion (threshold eng) pos_label (Spec.rows_of g df)))
           / inject_Z (count m)).
Proof.
  intros Heq Hg.
  destruct (lookup_group eng df pos_label st results st' g m Heq Hg)
    as (Hlen & m0 & Hb & Hm).
  pose proof (LoanFacts.group_body_inv eng pos_label _ m0 Hb)
    as (Hcount & _ & _ & _ & _ & _ & _ & _ & Har & _).
  pose proof (group_body_accuracy eng pos_label _ m0 Hb) as (Hacc & _).
  pose proof (sum_y_pred (threshold eng) pos_label (Spec.rows_of g df)) as Hsp.
  destruct (sum_arr_eq (threshold eng) pos_label (Spec.rows_of g df))
    as [Hsa Hla].
  set (sub := Spec.rows_of g df) in *.
  assert ((0 <? Z.of_nat (length sub)) = true) as Hpos
    by (apply Z.ltb_lt; lia).
  rewrite Hpos in Har, Hacc.
  rewrite Hm. cbn [count approval_rate accuracy set_ci].
  rewrite Hcount, Har, Hacc. split_and!; [lia|done| |].
  - rewrite mean_value.
    2:{ intros Hnil. apply (f_equal length) in Hnil.
        rewrite length_y_pred_of in Hnil. simpl in Hnil. lia. }
    by rewrite Hsp, length_y_pred_of.
  - rewrite mean_value.
    2:{ intros Hnil. apply (f_equal length) in Hnil.
        rewrite Hla in Hnil. simpl in Hnil. lia. }
    by rewrite Hsa, Hla.
Qed.

(** No group of the result is empty, so the approval rate and the accuracy
    of a group are never NaN: the approval rate is (TP + FP) / count and
    the accuracy is (TP + TN) / count, where count is the number of rows
    of the group. *)
Theorem approval_rate_and_accuracy eng df pos_label st :
  ∃ results st',
    compute_group_metrics eng df pos_label st = (Returned results, st') ∧
    ∀ g m, results !! g = Some m →
      let c := Spec.group_confusion (threshold eng) pos_label
                 (Spec.rows_of g df) in
      1 ≤ count m ∧
      count m = Z.of_nat (length (Spec.rows_of g df)) ∧
      approval_rate m = Fin (inject_Z (TP c + FP c) / inject_Z (count m)) ∧
      accuracy m = Fin (inject_Z (TP c + TN c) / inject_Z (count m)).
Proof.
  destruct (LoanFacts.compute_group_metrics_spec eng df pos_label st)
    as (res & st' & Heq & _).
  exists res, st'. split; [done|]. intros g m Hg c.
  by apply (approval_accuracy_values eng df pos_label st res st').
Qed.

Lemma ratio_nonzero (n d : Z) :
  d ≠ 0 → Fin (inject_Z n / inject_Z d) = Spec.ratio n d.
Proof. intros Hd. unfold Spec.ratio. by rewrite decide_False. Qed.

(** Every group of the result has at least one row, and each of its
    approval rate, accuracy, TPR, FPR, TNR, FNR, precision, recall and F1
    is a number between 0 and 1: no cell is NaN. *)
Theorem cells_in_unit_interval eng df pos_label st :
  ∃ results st',
    compute_group_metrics eng df pos_label st = (Returned results, st') ∧
    ∀ g m, results !! g = Some m →
      1 ≤ count m ∧
      SpecMore.unit_interval (approval_rate m) ∧
      SpecMore.unit_interval (accuracy m) ∧
      SpecMore.unit_interval (tpr m) ∧
      SpecMore.unit_interval (fpr m) ∧
      SpecMore.unit_interval (tnr m) ∧
      SpecMore.unit_interval (fnr m) ∧
      SpecMore.unit_interval (precision m) ∧
      SpecMore.unit_interval (recall m) ∧
      SpecMore.unit_interval (f1_score m).
Proof.
  destruct (LoanFacts.compute_group_metrics_spec eng df pos_label st)
    as (res & st' & Heq & _).
  exists res, st'. split; [done|]. intros g m Hg.
  destruct (approval_accuracy_values eng df pos_label st res st' g m Heq Hg)
    as (Hc1 & Hcl & Har & Hacc).
  destruct (lookup_group eng df pos_label st res st' g m Heq Hg)
    as (_ & m0 & Hb & Hm).
  destruct (LoanFacts.lookup_rates eng df pos_label st res st' g m Heq Hg)
    as (Htpr & Hfpr & Htnr & Hfnr & Hprec).
  pose proof (LoanFacts.group_body_inv eng pos_label _ m0 Hb)
    as (_ & _ & _ & _ & _ & _ & Hrec & Hf1 & _).
  destruct (LoanFacts.confusion_nonneg (threshold eng) pos_label
              (Spec.rows_of g df)) as (? & ? & ? & ?).
  pose proof (LoanFacts.confusion_total (threshold eng) pos_label
                (Spec.rows_of g df)) as Htot.
  set (c := Spec.group_confusion _ _ _) in *.
  assert (SpecMore.unit_interval (tpr m)) as Ut
    by (rewrite Htpr; apply ratio_unit; lia).
  assert (SpecMore.unit_interval (precision m)) as Up
    by (rewrite Hprec; apply ratio_unit; lia).
  assert (recall m = tpr m) as Hrecall by (rewrite Hm; exact Hrec).
  assert (f1_of (precision m) (recall m) = Returned (f1_score m)) as Hf1m
    by (rewrite Hm; exact Hf1).
  split_and!.
  - done.
  - rewrite Har, ratio_nonzero by lia. apply ratio_unit. lia.
  - rewrite Hacc, ratio_nonzero by lia. apply ratio_unit. lia.
  - done.
  - rewrite Hfpr. apply ratio_unit. lia.
  - rewrite Htnr. apply ratio_unit. lia.
  - rewrite Hfnr. apply ratio_unit. lia.
  - done.
  - by rewrite Hrecall.
  - eapply f1_of_unit; [| |exact Hf1m]; [done|by rewrite Hrecall].
Qed.

End Engine.
End LoanExtras.

(** * Disparities, flags and advice *)

Module FairnessExtras.
Import Py Loan.

(** ** [compute_fairness_metrics] never raises *)

Lemma div_guarded (mn mx : pyfloat) :
  ∃ v, (if gt mx zero then div mn mx else Returned zero) = Returned v.
Proof.
  destruct (gt mx zero) eqn:E; [|by eexists].
  apply LoanFacts.gt_zero_fin in E as (a & -> & Ha).
  destruct mn as [|b]; simpl; [by eexists|].
  rewrite LoanFacts.Qeq_bool_pos by done. by eexists.
Qed.

(** On every dict, NaN cells included, [compute_fairness_metrics] returns:
    the empty dict on fewer than two groups, and otherwise a dict with
    exactly the five disparity keys, in which disparate_impact holds the
    value of demographic_parity_ratio. *)
Theorem fairness_metrics_never_raise (gm : gmap string PerGroupMetrics) :
  ∃ fm,
    compute_fairness_metrics gm = Returned fm ∧
    ((size gm < 2)%nat → fm = ∅) ∧
    ((2 ≤ size gm)%nat →
     (∀ k, is_Some (fm !! k) ↔ k ∈ Advisor.disparity_keys) ∧
     fm !! "disparate_impact" = fm !! "demographic_parity_ratio").
Proof.
  destruct (decide (size gm < 2)%nat) as [Hs|Hs].
  - exists ∅. split_and!; [by apply LoanFacts.compute_fairness_metrics_small
                           |done|lia].
  - assert (2 ≤ size gm)%nat as Hsize by lia.
    destruct (LoanFacts.max_cells approval_rate gm Hsize) as (a1 & E1 & _).
    destruct (LoanFacts.min_cells approval_rate gm Hsize) as (a2 & E2 & _).
    destruct (LoanFacts.max_cells tpr gm Hsize) as (t1 & E3 & _).
    destruct (LoanFacts.min_cells tpr gm Hsize) as (t2 & E4 & _).
    destruct (LoanFacts.max_cells fpr gm Hsize) as (f1 & E5 & _).
    destruct (LoanFacts.min_cells fpr gm Hsize) as (f2 & E6 & _).
    destruct (div_guarded a2 a1) as (ratio & E7).
    eexists. split_and!;
      [by apply LoanFacts.compute_fairness_metrics_unfold|lia|].
    intros _. split; [|done].
    intros k. unfold Advisor.disparity_keys.
    rewrite !lookup_insert_is_Some, lookup_empty, !elem_of_cons, elem_of_nil.
    split.
    + intros [?|[_ [?|[_ [?|[_ [?|[_ [?|[_ [? ?]]]]]]]]]]]; try done; auto 10.
    + intros [->|[->|[->|[->|[->|[]]]]]]; auto 20.
Qed.

(** ** The disparities of groups with numeric cells *)

Lemma fairness_values (gm : gmap string PerGroupMetrics) :
  (2 ≤ size gm)%nat →
  (∀ g m, gm !! g = Some m →
     is_fin (approval_rate m) ∧ is_fin (tpr m) ∧ is_fin (fpr m)) →
  ∃ a1 a2 t1 t2 f1 f2 ratio odds,
    Spec.max_over approval_rate gm a1 ∧ Spec.min_over approval_rate gm a2 ∧
    Spec.max_over tpr gm t1 ∧ Spec.min_over tpr gm t2 ∧
    Spec.max_over fpr gm f1 ∧ Spec.min_over fpr gm f2 ∧
    ((0 < a1)%Q → ratio = (a2 / a1)%Q) ∧ ((a1 <= 0)%Q → ratio = 0%Q) ∧
    (odds = (t1 - t2)%Q ∨ odds = (f1 - f2)%Q) ∧
    (t1 - t2 <= odds)%Q ∧ (f1 - f2 <= odds)%Q ∧
    compute_fairness_metrics gm =
      Returned (<["demographic_parity_difference" := Fin (a1 - a2)]>
               (<["demographic_parity_ratio" := Fin ratio]>
               (<["equal_opportunity_difference" := Fin (t1 - t2)]>
               (<["equalized_odds_difference" := Fin odds]>
               (<["disparate_impact" := Fin ratio]> ∅))))).
Proof.
  intros Hsize Hfin.
  destruct (LoanFacts.max_cells approval_rate gm Hsize)
    as (? & E1 & (a1 & -> & M1)); [intros; by eapply Hfin|].
  destruct (LoanFacts.min_cells approval_rate gm Hsize)
    as (? & E2 & (a2 & -> & M2)); [intros; by eapply Hfin|].
  destruct (LoanFacts.max_cells tpr gm Hsize) as (? & E3 & (t1 & -> & M3));
    [intros g m Hg; by destruct (Hfin g m Hg) as (_ & ? & _)|].
  destruct (LoanFacts.min_cells tpr gm Hsize) as (? & E4 & (t2 & -> & M4));
    [intros g m Hg; by destruct (Hfin g m Hg) as (_ & ? & _)|].
  destruct (LoanFacts.max_cells fpr gm Hsize) as (? & E5 & (f1 & -> & M5));
    [intros g m Hg; by destruct (Hfin g m Hg) as (_ & _ & ?)|].
  destruct (LoanFacts.min_cells fpr gm Hsize) as (? & E6 & (f2 & -> & M6));
    [intros g m Hg; by destruct (Hfin g m Hg) as (_ & _ & ?)|].
  destruct (LoanFacts.dp_ratio_fin a1 a2) as (ratio & E7 & Hpos & Hzero).
  destruct (LoanFacts.max2_fin (t1 - t2) (f1 - f2))
    as (odds & Hodds & Hor & Ht & Hf).
  exists a1, a2, t1, t2, f1, f2, ratio, odds.
  split_and!; try done.
  rewrite (LoanFacts.compute_fairness_metrics_unfold gm _ _ _ _ _ _ _
             Hsize E1 E2 E3 E4 E5 E6 E7).
  simpl sub. by rewrite Hodds.
Qed.

Lemma max_ge_min (f : PerGroupMetrics → pyfloat)
    (gm : gmap string PerGroupMetrics) (hi lo : Q) :
  Spec.max_over f gm hi → Spec.min_over f gm lo → (lo <= hi)%Q.
Proof. intros [_ Hub] [(g & m & Hg & Hm) _]. by eapply Hub. Qed.

(** On two groups or more with numeric cells, the three differences are
    not negative, and the equalized-odds difference is at least the
    equal-opportunity difference; when the TPRs and FPRs lie in [0,1] both
    are at most 1. *)
Theorem differences_ordered (gm : gmap string PerGroupMetrics) :
  (2 ≤ size gm)%nat →
  (∀ g m, gm !! g = Some m →
     is_fin (approval_rate m) ∧ is_fin (tpr m) ∧ is_fin (fpr m)) →
  ∃ fm dp eo odds,
    compute_fairness_metrics gm = Returned fm ∧
    fm !! "demographic_parity_difference" = Some (Fin dp) ∧
    fm !! "equal_opportunity_difference" = Some (Fin eo) ∧
    fm !! "equalized_odds_difference" = Some (Fin odds) ∧
    (0 <= dp)%Q ∧ (0 <= eo)%Q ∧ (eo <= odds)%Q ∧
    ((∀ g m, gm !! g = Some m →
        SpecMore.unit_interval (tpr m) ∧ SpecMore.unit_interval (fpr m)) →
     (odds <= 1)%Q).
Proof.
  intros Hsize Hfin.
  destruct (fairness_values gm Hsize Hfin)
    as (a1 & a2 & t1 & t2 & f1 & f2 & ratio & odds & M1 & M2 & M3 & M4 & M5
        & M6 & _ & _ & Hor & Ht & Hf & ->).
  pose proof (max_ge_min _ _ _ _ M1 M2). pose proof (max_ge_min _ _ _ _ M3 M4).
  eexists _, (a1 - a2)%Q, (t1 - t2)%Q, odds.
  split_and!; [done|done|done|done|lra|lra|done|].
  intros Hunit.
  destruct M3 as [(g3 & m3 & Hg3 & Hm3) _], M4 as [(g4 & m4 & Hg4 & Hm4) _].
  destruct M5 as [(g5 & m5 & Hg5 & Hm5) _], M6 as [(g6 & m6 & Hg6 & Hm6) _].
  destruct (Hunit g3 m3 Hg3) as [(q3 & E3 & ? & ?) _].
  destruct (Hunit g4 m4 Hg4) as [(q4 & E4 & ? & ?) _].
  destruct (Hunit g5 m5 Hg5) as [_ (q5 & E5 & ? & ?)].
  destruct (Hunit g6 m6 Hg6) as [_ (q6 & E6 & ? & ?)].
  assert (q3 = t1) as -> by congruence. assert (q4 = t2) as -> by congruence.
  assert (q5 = f1) as -> by congruence. assert (q6 = f2) as -> by congruence.
  destruct Hor as [-> | ->]; lra.
Qed.

(** ** [identify_flags] *)

Lemma lt_default_present (d : gmap string pyfloat) (key : string) :
  lt (get d key (Fin 1)) (Fin (8 # 10)) = true → is_Some (d !! key).
Proof. unfold get. destruct (d !! key); [by eexists|done]. Qed.

Lemma gt_default_present (d : gmap string pyfloat) (key : string) :
  gt (get d key (Fin 0)) (Fin (10 # 100)) = true → is_Some (d !! key).
Proof. unfold get. destruct (d !! key); [by eexists|done]. Qed.

Section Flags.
Context `{External}.

Lemma flag_rule_returns (d : gmap string pyfloat) (key : string)
    (triggered : bool) (text bound : string) (flags : list string) :
  (triggered = true → is_Some (d !! key)) →
  ∃ flags', flag_rule d key triggered text bound flags = Returned flags' ∧
            length flags' = (length flags + if triggered then 1 else 0)%nat.
Proof.
  intros Hkey. unfold flag_rule. destruct triggered.
  - destruct Hkey as [v Hv]; [done|]. unfold getitem. rewrite Hv. simpl.
    eexists. split; [done|]. rewrite length_app. simpl. lia.
  - exists flags. split; [done|lia].
Qed.

Lemma identify_flags_length (d : gmap string pyfloat) :
  ∃ flags,
    identify_flags d = Returned flags ∧
    length flags = length (filter (λ b, b = true) (Advisor.triggers d)).
Proof.
  unfold identify_flags. cbv zeta.
  destruct (flag_rule_returns d "disparate_impact"
              (lt (get d "disparate_impact" (Fin 1)) (Fin (8 # 10)))
              "Disparate impact ratio = " " < 0.8" [])
    as (fl1 & -> & L1); [apply lt_default_present|].
  cbn [bind].
  destruct (flag_rule_returns d "demographic_parity_difference"
              (gt (get d "demographic_parity_difference" (Fin 0)) (Fin (10 # 100)))
              "Demographic parity difference = " " > 0.10" fl1)
    as (fl2 & -> & L2); [apply gt_default_present|].
  cbn [bind].
  destruct (flag_rule_returns d "equal_opportunity_difference"
              (gt (get d "equal_opportunity_difference" (Fin 0)) (Fin (10 # 100)))
              "Equal opportunity difference = " " > 0.10" fl2)
    as (fl3 & -> & L3); [apply gt_default_present|].
  cbn [bind].
  destruct (flag_rule_returns d "equalized_odds_difference"
              (gt (get d "equalized_odds_difference" (Fin 0)) (Fin (10 # 100)))
              "Equalized odds difference = " " > 0.10" fl3)
    as (fl4 & -> & L4); [apply gt_default_present|].
  exists fl4. split; [done|].
  rewrite L4, L3, L2, L1. unfold Advisor.triggers.
  rewrite !filter_cons, filter_nil.
  destruct (lt _ _), (gt _ _), (gt _ _), (gt _ _); simpl; lia.
Qed.

(** [identify_flags] raises on no dict: a rule reads its message value
    only when its key is present.  It returns one flag per rule that
    triggers, so at most four, and none exactly when no rule triggers; a
    missing metric triggers nothing. *)
Theorem identify_flags_never_raises (d : gmap string pyfloat) :
  ∃ flags,
    identify_flags d = Returned flags ∧
    length flags = length (filter (λ b, b = true) (Advisor.triggers d)) ∧
    (length flags ≤ 4)%nat ∧
    (flags = [] ↔ Advisor.triggers d = [false; false; false; false]) ∧
    (assessment_of flags = "PASS" ↔
     Advisor.triggers d = [false; false; false; false]) ∧
    (d = ∅ → flags = []).
Proof.
  destruct (identify_flags_length d) as (flags & Heq & Hlen).
  exists flags. split; [done|]. split; [done|].
  assert (flags = [] ↔ Advisor.triggers d = [false; false; false; false])
    as Hnil.
  { rewrite <-length_zero_iff_nil, Hlen. unfold Advisor.triggers.
    rewrite !filter_cons, filter_nil.
    destruct (lt _ _), (gt _ _), (gt _ _), (gt _ _); simpl;
      split; (done || lia || congruence). }
  split_and!.
  - rewrite Hlen. unfold Advisor.triggers.
    rewrite !filter_cons, filter_nil. repeat case_decide; simpl; lia.
  - done.
  - rewrite <-Hnil. destruct flags; simpl; split; done.
  - intros ->. by apply Hnil.
Qed.

Lemma trigger_disparate_impact (fm : gmap string pyfloat) (ratio : Q) :
  fm !! "disparate_impact" = Some (Fin ratio) →
  lt (get fm "disparate_impact" (Fin 1)) (Fin (8 # 10))
  = negb (Qle_bool (8 # 10) ratio).
Proof. intros Hk. unfold get. by rewrite Hk. Qed.

Lemma trigger_difference (fm : gmap string pyfloat) (key : string) (x : Q) :
  fm !! key = Some (Fin x) →
  gt (get fm key (Fin 0)) (Fin (10 # 100)) = negb (Qle_bool x (10 # 100)).
Proof. intros Hk. unfold get. by rewrite Hk. Qed.

(** When nobody is approved in any of two or more groups, the groups are
    treated alike and yet the disparate-impact rule fires: the ratio is
    0.0 and the assessment is 'FAIL'. *)
Theorem no_approval_anywhere_fails (gm : gmap string PerGroupMetrics) :
  (2 ≤ size gm)%nat →
  (∀ g m, gm !! g = Some m → ∃ q, approval_rate m = Fin q ∧ (q == 0)%Q) →
  ∃ fm flags,
    compute_fairness_metrics gm = Returned fm ∧
    fm !! "disparate_impact" = Some (Fin 0) ∧
    identify_flags fm = Returned flags ∧
    flags ≠ [] ∧
    assessment_of flags = "FAIL".
Proof.
  intros Hsize Hzero.
  destruct (LoanFacts.max_cells approval_rate gm Hsize)
    as (? & E1 & (a1 & -> & M1)).
  { intros g m Hg. by destruct (Hzero g m Hg) as (q & -> & _). }
  destruct (LoanFacts.min_cells approval_rate gm Hsize)
    as (? & E2 & (a2 & -> & M2)).
  { intros g m Hg. by destruct (Hzero g m Hg) as (q & -> & _). }
  destruct (LoanFacts.max_cells tpr gm Hsize) as (t1 & E3 & _).
  destruct (LoanFacts.min_cells tpr gm Hsize) as (t2 & E4 & _).
  destruct (LoanFacts.max_cells fpr gm Hsize) as (f1 & E5 & _).
  destruct (LoanFacts.min_cells fpr gm Hsize) as (f2 & E6 & _).
  destruct (LoanFacts.dp_ratio_fin a1 a2) as (ratio & E7 & _ & Hz).
  assert (ratio = 0%Q) as ->.
  { apply Hz. destruct M1 as [(g & m & Hg & Hm) _].
    destruct (Hzero g m Hg) as (q & Hq & Hq0).
    assert (q = a1) as -> by congruence. lra. }
  pose proof (LoanFacts.compute_fairness_metrics_unfold gm _ _ _ _ _ _ _
                Hsize E1 E2 E3 E4 E5 E6 E7) as Hfm.
  eexists. destruct (identify_flags_never_raises
                       (<["demographic_parity_difference" := sub (Fin a1) (Fin a2)]>
                        (<["demographic_parity_ratio" := Fin 0]>
                        (<["equal_opportunity_difference" := sub t1 t2]>
                        (<["equalized_odds_difference" :=
                             max2 (sub t1 t2) (sub f1 f2)]>
                        (<["disparate_impact" := Fin 0]> ∅))))))
    as (flags & Hflags & _ & _ & Hnil & _).
  exists flags. split_and!; [exact Hfm|done|exact Hflags| |].
  - intros Hn. apply Hnil in Hn. unfold Advisor.triggers in Hn.
    rewrite (trigger_disparate_impact _ 0) in Hn by done. done.
  - destruct flags as [|fl flags]; [|done].
    assert (Advisor.triggers
              (<["demographic_parity_difference" := sub (Fin a1) (Fin a2)]>
               (<["demographic_parity_ratio" := Fin 0]>
               (<["equal_opportunity_difference" := sub t1 t2]>
               (<["equalized_odds_difference" := max2 (sub t1 t2) (sub f1 f2)]>
               (<["disparate_impact" := Fin 0]> ∅)))))
            = [false; false; false; false]) as Hn by (by apply Hnil).
    unfold Advisor.triggers in Hn.
    rewrite (trigger_disparate_impact _ 0) in Hn by done. done.
Qed.

(** When two or more groups share one positive approval rate, one TPR
    and one FPR, no rule fires and the assessment is 'PASS'. *)
Theorem identical_groups_pass (gm : gmap string PerGroupMetrics) (a t f : Q) :
  (2 ≤ size gm)%nat →
  (0 < a)%Q →
  (∀ g m, gm !! g = Some m →
     ∃ qa qt qf, approval_rate m = Fin qa ∧ tpr m = Fin qt ∧ fpr m = Fin qf ∧
                 (qa == a)%Q ∧ (qt == t)%Q ∧ (qf == f)%Q) →
  ∃ fm,
    compute_fairness_metrics gm = Returned fm ∧
    identify_flags fm = Returned [] ∧
    assessment_of [] = "PASS".
Proof.
  intros Hsize Ha Hsame.
  destruct (fairness_values gm Hsize)
    as (a1 & a2 & t1 & t2 & f1 & f2 & ratio & odds & M1 & M2 & M3 & M4 & M5
        & M6 & Hpos & _ & Hor & _ & _ & Hfm).
  { intros g m Hg.
    by destruct (Hsame g m Hg) as (qa & qt & qf & -> & -> & -> & _). }
  assert ((a1 == a)%Q ∧ (a2 == a)%Q ∧ (t1 == t)%Q ∧ (t2 == t)%Q ∧
          (f1 == f)%Q ∧ (f2 == f)%Q) as (Ea1 & Ea2 & Et1 & Et2 & Ef1 & Ef2).
  { destruct M1 as [(g1 & m1 & Hg1 & Hm1) _], M2 as [(g2 & m2 & Hg2 & Hm2) _].
    destruct M3 as [(g3 & m3 & Hg3 & Hm3) _], M4 as [(g4 & m4 & Hg4 & Hm4) _].
    destruct M5 as [(g5 & m5 & Hg5 & Hm5) _], M6 as [(g6 & m6 & Hg6 & Hm6) _].
    destruct (Hsame g1 m1 Hg1) as (? & ? & ? & E1 & _ & _ & ? & _).
    destruct (Hsame g2 m2 Hg2) as (? & ? & ? & E2 & _ & _ & ? & _).
    destruct (Hsame g3 m3 Hg3) as (? & ? & ? & _ & E3 & _ & _ & ? & _).
    destruct (Hsame g4 m4 Hg4) as (? & ? & ? & _ & E4 & _ & _ & ? & _).
    destruct (Hsame g5 m5 Hg5) as (? & ? & ? & _ & _ & E5 & _ & _ & ?).
    destruct (Hsame g6 m6 Hg6) as (? & ? & ? & _ & _ & E6 & _ & _ & ?).
    rewrite Hm1 in E1. rewrite Hm2 in E2. rewrite Hm3 in E3.
    rewrite Hm4 in E4. rewrite Hm5 in E5. rewrite Hm6 in E6.
    by simplify_eq. }
  assert (ratio == 1)%Q as Hratio.
  { rewrite Hpos by lra. rewrite Ea1, Ea2. unfold Qdiv.
    apply Qmult_inv_r. lra. }
  assert (odds == 0)%Q as Hodds by (destruct Hor as [-> | ->]; lra).
  eexists. split; [exact Hfm|]. split; [|done].
  match goal with |- identify_flags ?d = _ =>
    destruct (identify_flags_never_raises d)
      as (flags & -> & _ & _ & Hnil & _) end.
  f_equal. apply Hnil. unfold Advisor.triggers.
  rewrite (trigger_disparate_impact _ ratio) by done.
  rewrite (trigger_difference _ "demographic_parity_difference" (a1 - a2))
    by done.
  rewrite (trigger_difference _ "equal_opportunity_difference" (t1 - t2))
    by done.
  rewrite (trigger_difference _ "equalized_odds_difference" odds) by done.
  rewrite (proj2 (Qle_bool_iff (8 # 10) ratio)) by (rewrite Hratio; lra).
  rewrite (proj2 (Qle_bool_iff (a1 - a2) (10 # 100))) by lra.
  rewrite (proj2 (Qle_bool_iff (t1 - t2) (10 # 100))) by lra.
  rewrite (proj2 (Qle_bool_iff odds (10 # 100))) by (rewrite Hodds; lra).
  done.
Qed.

(** On two groups or more with numeric cells, whenever the
    equal-opportunity rule fires the equalized-odds rule fires too, so a
    TPR gap above 0.10 always yields at least two flags. *)
Theorem equal_opportunity_flag_brings_odds_flag
    (gm : gmap string PerGroupMetrics) :
  (2 ≤ size gm)%nat →
  (∀ g m, gm !! g = Some m →
     is_fin (approval_rate m) ∧ is_fin (tpr m) ∧ is_fin (fpr m)) →
  ∃ fm flags b1 b2 b3 b4,
    compute_fairness_metrics gm = Returned fm ∧
    identify_flags fm = Returned flags ∧
    Advisor.triggers fm = [b1; b2; b3; b4] ∧
    (b3 = true → b4 = true ∧ (2 ≤ length flags)%nat).
Proof.
  intros Hsize Hfin.
  destruct (fairness_values gm Hsize Hfin)
    as (a1 & a2 & t1 & t2 & f1 & f2 & ratio & odds & _ & _ & _ & _ & _ & _
        & _ & _ & _ & Ht & _ & Hfm).
  eexists.
  match type of Hfm with _ = Returned ?d =>
    destruct (identify_flags_never_raises d)
      as (flags & Hflags & Hlen & _) end.
  eexists flags, _, _, _, _.
  split_and!; [exact Hfm|exact Hflags|reflexivity|].
  rewrite (trigger_difference _ "equal_opportunity_difference" (t1 - t2))
    by done.
  rewrite (trigger_difference _ "equalized_odds_difference" odds) by done.
  intros Hb3%negb_true_iff.
  assert (Qle_bool odds (10 # 100) = false) as Hb4.
  { destruct (Qle_bool odds (10 # 100)) eqn:E; [|done].
    apply Qle_bool_iff in E.
    assert (t1 - t2 <= 10 # 100)%Q as Hle by lra.
    apply Qle_bool_iff in Hle. congruence. }
  split; [by rewrite Hb4|].
  rewrite Hlen. unfold Advisor.triggers.
  rewrite (trigger_difference _ "equal_opportunity_difference" (t1 - t2))
    by done.
  rewrite (trigger_difference _ "equalized_odds_difference" odds) by done.
  rewrite Hb3, Hb4. rewrite !filter_cons, filter_nil. simpl.
  repeat case_decide; simpl; lia.
Qed.

End Flags.
End FairnessExtras.

(** * Advice, evaluation after inference, and the bootstrap *)

Module PipelineExtras.
Import Py Loan.

Lemma Qle_bool_tenth (x : Q) : Qle_bool x (1 # 10) = Qle_bool x (10 # 100).
Proof.
  destruct (Qle_bool x (10 # 100)) eqn:E.
  - apply Qle_bool_iff in E. apply Qle_bool_iff. lra.
  - destruct (Qle_bool x (1 # 10)) eqn:E'; [|done].
    apply Qle_bool_iff in E'.
    assert (x <= 10 # 100)%Q as Hle by lra.
    apply Qle_bool_iff in Hle. congruence.
Qed.

Lemma gt_tenth (x : pyfloat) : gt x (Fin (1 # 10)) = gt x (Fin (10 # 100)).
Proof. destruct x as [|q]; [done|]. simpl. by rewrite Qle_bool_tenth. Qed.

Section Advice.
Context `{External}.

(** The advice follows the flags of [identify_flags]: it is the single
    no-issue line exactly when no flag was raised; otherwise it ends with
    the general block, preceded by the disparate-impact block exactly when
    the disparate-impact rule fired and by the equal-opportunity block
    exactly when the equal-opportunity rule fired.  It is never empty. *)
Theorem advice_follows_flags (d : gmap string pyfloat) :
  ∃ flags b1 b2 b3 b4,
    identify_flags d = Returned flags ∧
    Advisor.triggers d = [b1; b2; b3; b4] ∧
    Advisor.generate_recommendations d flags ≠ [] ∧
    (Advisor.generate_recommendations d flags = [Advisor.no_issue]
     ↔ flags = []) ∧
    (flags ≠ [] →
     Advisor.generate_recommendations d flags
     = (if b1 then Advisor.disparate_impact_advice else [])
       ++ (if b3 then Advisor.equal_opportunity_advice else [])
       ++ Advisor.general_advice).
Proof.
  destruct (FairnessExtras.identify_flags_never_raises d)
    as (flags & Hflags & _).
  eexists flags, _, _, _, _. split_and!; [exact Hflags|reflexivity|..].
  - unfold Advisor.generate_recommendations. destruct flags; [done|].
    rewrite gt_tenth. destruct (lt _ _), (gt _ _); done.
  - unfold Advisor.generate_recommendations. destruct flags; [done|].
    rewrite gt_tenth. destruct (lt _ _), (gt _ _); done.
  - intros Hne. unfold Advisor.generate_recommendations.
    destruct flags; [done|]. rewrite gt_tenth.
    destruct (lt _ _), (gt _ _); done.
Qed.

(** ** Evaluation after inference *)

Lemma inferred_predictions θ (df : DataFrame) (probabilities : list pyfloat) :
  length probabilities = length df →
  astype_int_all (map r_pred (zip_with (Spec.scored θ) df probabilities))
  = Returned (predict probabilities θ).
Proof.
  intros Hlen. apply LoanFacts.astype_int_all_fmap. unfold predict.
  revert probabilities Hlen.
  induction df as [|r df IH]; intros [|p ps] Hlen; simplify_eq/=;
    [constructor|].
  constructor; [apply LoanFacts.astype_int_01|by apply IH].
Qed.

Lemma length_scored θ (df : DataFrame) (probabilities : list pyfloat) :
  length probabilities = length df →
  length (zip_with (Spec.scored θ) df probabilities) = length df.
Proof. intros Hlen. rewrite length_zip_with. lia. Qed.

(** Once the scores are aligned with the rows, nothing in the evaluation
    raises: [evaluate_fairness] returns on the table written by
    [run_inference], with total_records the number of rows and the overall
    approval rate the mean of the predictions [score >= θ]; when the
    lengths differ [run_inference] raises ValueError. *)
Theorem evaluation_after_inference θ eng pos_label (df : DataFrame)
    (probabilities : list pyfloat) st :
  (length probabilities = length df →
   ∃ df' ev st',
     run_inference θ df probabilities = Returned df' ∧
     evaluate_fairness eng pos_label df' st = (Returned ev, st') ∧
     total_records (ev_overall ev) = Z.of_nat (length df) ∧
     overall_approval_rate (ev_overall ev) = mean (predict probabilities θ) ∧
     identify_flags (ev_fairness_metrics ev) = Returned (ev_flags ev)) ∧
  (length probabilities ≠ length df →
   run_inference θ df probabilities = Raised ValueError).
Proof.
  split.
  - intros Hlen. rewrite LoanFacts.run_inference_eq by done.
    eexists. unfold evaluate_fairness.
    destruct (LoanFacts.compute_group_metrics_spec eng
                (zip_with (Spec.scored θ) df probabilities) pos_label st)
      as (res & st' & -> & _).
    rewrite inferred_predictions by done. cbn [bind].
    destruct (FairnessExtras.fairness_metrics_never_raise res) as (fm & -> & _).
    cbn [bind].
    destruct (FairnessExtras.identify_flags_never_raises fm)
      as (flags & Hflags & _).
    rewrite Hflags. cbn [bind]. eexists _, _.
    split_and!; [done|done| |done|done].
    simpl. by rewrite length_scored.
  - intros Hlen. unfold run_inference.
    by destruct (Nat.eqb_spec (length probabilities) (length df)).
Qed.

(** ** The bootstrap loop *)

Lemma mean_binary (l : list Z) :
  l ≠ [] → SpecSampler.binary l → SpecMore.unit_interval (mean l).
Proof.
  intros Hne Hbin. rewrite LoanExtras.mean_value by done.
  assert (0 ≤ sum l ≤ Z.of_nat (length l)) as Hsum.
  { clear Hne. induction l as [|x l IH]; [done|].
    assert (x = 0 ∨ x = 1) as Hx by (apply Hbin; left).
    assert (0 ≤ sum l ≤ Z.of_nat (length l)) as Hl.
    { apply IH. intros y Hy. apply Hbin. by right. }
    simpl sum. simpl length. lia. }
  rewrite LoanExtras.ratio_nonzero.
  - by apply LoanExtras.ratio_unit.
  - destruct l; [done|simpl; lia].
Qed.

Lemma resample_stats (data : list Z) (n n_bootstrap : nat)
    (stats : list pyfloat) st :
  SpecSampler.sampler_sound →
  (0 < n)%nat → (0 < length data)%nat → SpecSampler.binary data →
  Forall SpecMore.unit_interval stats →
  length (resample data mean n n_bootstrap stats st).1
    = (length stats + n_bootstrap)%nat ∧
  Forall SpecMore.unit_interval (resample data mean n n_bootstrap stats st).1.
Proof.
  intros Hsound Hn Hdata Hbin. revert stats st.
  induction n_bootstrap as [|k IH]; intros stats st Hstats; simpl.
  - split; [lia|done].
  - destruct (Hsound st data n) as [Hlen Hsub].
    { intros ->. simpl in Hdata. lia. }
    destruct (random_choice st data n) as [sample st1]. simpl in Hlen, Hsub.
    destruct (IH (stats ++ [mean sample]) st1) as [IHlen IHall].
    { apply Forall_app. split; [done|]. constructor; [|done].
      apply mean_binary.
      - intros ->. simpl in Hlen. lia.
      - intros x Hx. by apply Hbin, Hsub. }
    split; [|done]. rewrite IHlen, length_app. simpl. lia.
Qed.

(** With a generator that draws elements of the data, [bootstrap_ci] on a
    non-empty 0/1 array hands [np.percentile] exactly [n_bootstrap]
    resampled means, each a number between 0 and 1; on an empty array it
    returns (NaN, NaN) and draws nothing. *)
Theorem bootstrap_statistics (data : list Z) (n_bootstrap : nat) (alpha : Q) st :
  SpecSampler.sampler_sound →
  SpecSampler.binary data →
  (data = [] →
   bootstrap_ci data mean n_bootstrap alpha st = (Returned (NaN, NaN), st)) ∧
  (data ≠ [] →
   ∃ stats st',
     resample data mean (length data) n_bootstrap [] st = (stats, st') ∧
     length stats = n_bootstrap ∧
     Forall SpecMore.unit_interval stats ∧
     bootstrap_ci data mean n_bootstrap alpha st
     = (lower ←! percentile stats (100 * (alpha / 2));
        upper ←! percentile stats (100 * (1 - alpha / 2));
        Returned (lower, upper), st')).
Proof.
  intros Hsound Hbin. split.
  - by intros ->.
  - intros Hne.
    destruct (resample_stats data (length data) n_bootstrap [] st Hsound)
      as [Hlen Hall];
      [destruct data; [done|simpl; lia]|destruct data; [done|simpl; lia]
      |done|done|].
    unfold bootstrap_ci.
    destruct (Nat.eqb_spec (length data) 0) as [Hz|_].
    { destruct data; [done|simpl in Hz; lia]. }
    destruct (resample data mean (length data) n_bootstrap [] st)
      as [stats st'].
    exists stats, st'. by split_and!.
Qed.

End Advice.
End PipelineExtras.

(** * The further theorems with hypotheses, applied *)

Module ExtrasRuns.
Import Py Loan Reference Examples ExamplesMore.

Lemma draw_sound : SpecSampler.sampler_sound.
Proof.
  intros st data n Hne. simpl. revert st.
  induction n as [|k IH]; intros st; simpl.
  - split; [done|]. intros x Hx. by apply elem_of_nil in Hx.
  - specialize (IH (lcg_next st)).
    destruct (draw (lcg_next st) data k) as [xs st'] eqn:E. simpl in *.
    destruct IH as [IHlen IHsub]. split; [by rewrite IHlen|].
    intros x [->|Hx]%elem_of_cons; [|by apply IHsub].
    apply list_elem_of_In, nth_In.
    assert (0 < Z.of_nat (length data)) by (destruct data; [done|simpl; lia]).
    pose proof (Z.mod_pos_bound (st / 65536) (Z.of_nat (length data))). lia.
Qed.

Lemma two_groups_fin g m :
  two_groups !! g = Some m →
  is_fin (approval_rate m) ∧ is_fin (tpr m) ∧ is_fin (fpr m).
Proof.
  intros Hg. unfold two_groups in Hg.
  apply lookup_insert_Some in Hg as [[_ <-]|[_ Hg]]; [done|].
  apply lookup_insert_Some in Hg as [[_ <-]|[_ Hg]]; [done|].
  by rewrite lookup_empty in Hg.
Qed.

Lemma differences_ordered_witness :
  ∃ fm dp eo odds,
    compute_fairness_metrics two_groups = Returned fm ∧
    fm !! "demographic_parity_difference" = Some (Fin dp) ∧
    fm !! "equal_opportunity_difference" = Some (Fin eo) ∧
    fm !! "equalized_odds_difference" = Some (Fin odds) ∧
    (0 <= dp)%Q ∧ (0 <= eo)%Q ∧ (eo <= odds)%Q ∧
    ((∀ g m, two_groups !! g = Some m →
        SpecMore.unit_interval (tpr m) ∧ SpecMore.unit_interval (fpr m)) →
     (odds <= 1)%Q).
Proof.
  apply FairnessExtras.differences_ordered.
  - vm_compute. lia.
  - exact two_groups_fin.
Defined.

Lemma equal_opportunity_flag_brings_odds_flag_witness :
  ∃ fm flags b1 b2 b3 b4,
    compute_fairness_metrics two_groups = Returned fm ∧
    identify_flags fm = Returned flags ∧
    Advisor.triggers fm = [b1; b2; b3; b4] ∧
    (b3 = true → b4 = true ∧ (2 ≤ length flags)%nat).
Proof.
  apply (FairnessExtras.equal_opportunity_flag_brings_odds_flag
           (H := reference_external)).
  - vm_compute. lia.
  - exact two_groups_fin.
Defined.

Lemma no_approval_anywhere_fails_witness :
  ∃ fm flags,
    compute_fairness_metrics unapproved_groups = Returned fm ∧
    fm !! "disparate_impact" = Some (Fin 0) ∧
    identify_flags fm = Returned flags ∧
    flags ≠ [] ∧
    assessment_of flags = "FAIL".
Proof.
  apply (FairnessExtras.no_approval_anywhere_fails (H := reference_external)).
  - vm_compute. lia.
  - intros g m Hg. unfold unapproved_groups in Hg.
    apply lookup_insert_Some in Hg as [[_ <-]|[_ Hg]].
    { exists 0%Q. split; [reflexivity|lra]. }
    apply lookup_insert_Some in Hg as [[_ <-]|[_ Hg]].
    { exists 0%Q. split; [reflexivity|lra]. }
    by rewrite lookup_empty in Hg.
Defined.

Lemma identical_groups_pass_witness :
  ∃ fm,
    compute_fairness_metrics alike_groups = Returned fm ∧
    identify_flags fm = Returned [] ∧
    assessment_of [] = "PASS".
Proof.
  apply (FairnessExtras.identical_groups_pass (H := reference_external)
           alike_groups (1 # 2) (4 # 5) (1 # 10)).
  - vm_compute. lia.
  - lra.
  - intros g m Hg. unfold alike_groups in Hg.
    apply lookup_insert_Some in Hg as [[_ <-]|[_ Hg]].
    { exists (1 # 2), (4 # 5), (1 # 10). split_and!; reflexivity. }
    apply lookup_insert_Some in Hg as [[_ <-]|[_ Hg]].
    { exists (1 # 2), (4 # 5), (1 # 10). split_and!; reflexivity. }
    by rewrite lookup_empty in Hg.
Defined.

Lemma bootstrap_statistics_witness :
  (ten_predictions = [] →
   bootstrap_ci ten_predictions mean 200 (5 # 100) (0 : Z)
   = (Returned (NaN, NaN), 0)) ∧
  (ten_predictions ≠ [] →
   ∃ stats st',
     resample ten_predictions mean (length ten_predictions) 200 [] (0 : Z)
       = (stats, st') ∧
     length stats = 200%nat ∧
     Forall SpecMore.unit_interval stats ∧
     bootstrap_ci ten_predictions mean 200 (5 # 100) (0 : Z)
     = (lower ←! percentile stats (100 * ((5 # 100) / 2));
        upper ←! percentile stats (100 * (1 - (5 # 100) / 2));
        Returned (lower, upper), st')).
Proof.
  apply (PipelineExtras.bootstrap_statistics (H := reference_external)
           ten_predictions 200 (5 # 100) 0).
  - exact draw_sound.
  - intros x Hx. unfold ten_predictions in Hx.
    repeat (apply elem_of_cons in Hx as [->|Hx]; [auto|]).
    by apply elem_of_nil in Hx.
Defined.

End ExtrasRuns.

(** * The pairing of TRIAL.py *)

Module TrialFacts.
Import Py Trial.

Lemma elem_of_indexed (df : list EmbRow) (i : nat) (r : EmbRow) :
  (i, r) ∈ indexed df ↔ df !! i = Some r.
Proof.
  unfold indexed. rewrite elem_of_lookup_imap. split.
  - by intros (j & y & [= -> ->] & Hy).
  - intros Hi. by exists i, r.
Qed.

Lemma unique_from_constant (a : string) (seen l : list string) :
  (∀ x, x ∈ l → x = a) →
  unique_from seen l
  = if bool_decide (a ∈ seen) then [] else match l with [] => [] | _ => [a] end.
Proof.
  revert seen. induction l as [|x l IH]; intros seen Hall.
  - simpl. by case_bool_decide.
  - assert (x = a) as -> by (apply Hall; left).
    simpl. rewrite !IH by (intros; apply Hall; by right).
    case_bool_decide as Hin; [done|].
    rewrite bool_decide_eq_true_2 by left. done.
Qed.

Lemma filter_indexed_length (P : EmbRow → Prop) `{!∀ r, Decision (P r)}
    (g : nat → nat) (df : list EmbRow) :
  length (filter (λ ir : nat * EmbRow, P ir.2) (imap (λ i r, (g i, r)) df))
  = length (filter P df).
Proof.
  revert g. induction df as [|r df IH]; intros g; [done|].
  cbn [imap]. rewrite !filter_cons. cbn [snd].
  destruct (decide (P r)); cbn [length]; [f_equal|]; apply (IH (g ∘ S)).
Qed.

Lemma indexed_filter_length (P : EmbRow → Prop) `{!∀ r, Decision (P r)}
    (df : list EmbRow) :
  length (filter (λ ir : nat * EmbRow, P ir.2) (indexed df))
  = length (filter P df).
Proof. apply (filter_indexed_length P id). Qed.

Lemma filter_all {A} (P : A → Prop) `{!∀ x, Decision (P x)} (l : list A) :
  (∀ x, x ∈ l → P x) → filter P l = l.
Proof.
  induction l as [|x l IH]; intros Hall; [done|].
  rewrite filter_cons, decide_True by (apply Hall; left).
  f_equal. apply IH. intros y Hy. apply Hall. by right.
Qed.

Lemma pairs_of_identity_elem (df : list EmbRow) (identity : string) i j l :
  (i, j, l) ∈ pairs_of_identity df identity →
  l = 1 ∧
  ∃ ri rj, df !! i = Some ri ∧ df !! j = Some rj ∧
           e_aug ri = "original" ∧ e_aug rj ≠ "original" ∧
           e_identity ri = identity ∧ e_identity rj = identity.
Proof.
  unfold pairs_of_identity. cbv zeta.
  destruct (filter (λ ir, e_aug ir.2 = "original") _) as [|[o ro] rest] eqn:E;
    [by intros ?%elem_of_nil|].
  intros ([a ra] & [= -> -> ->] & Ha)%list_elem_of_fmap.
  assert ((o, ro) ∈ filter (λ ir : nat * EmbRow, e_aug ir.2 = "original")
            (filter (λ ir : nat * EmbRow, e_identity ir.2 = identity)
               (indexed df))) as Ho by (rewrite E; left).
  apply list_elem_of_filter in Ho as [Hoa Ho].
  apply list_elem_of_filter in Ho as [Hoi Ho].
  apply list_elem_of_filter in Ha as [Haa Ha].
  apply list_elem_of_filter in Ha as [Hai Ha].
  apply elem_of_indexed in Ho. apply elem_of_indexed in Ha.
  split; [done|]. by exists ro, ra.
Qed.

(** [generate_augmented_pairs] pairs an original row only against an
    augmented row of the same identity, with label 1, so never a row with
    itself; and a table that holds, for a single identity, one original
    row and k augmented rows yields exactly k pairs. *)
Theorem pairs_original_against_augmented (df : list EmbRow) :
  (∀ i j l, (i, j, l) ∈ generate_augmented_pairs df →
     l = 1 ∧ i ≠ j ∧
     ∃ ri rj, df !! i = Some ri ∧ df !! j = Some rj ∧
              e_aug ri = "original" ∧ e_aug rj ≠ "original" ∧
              e_identity ri = e_identity rj) ∧
  (∀ identity,
     (∀ r, r ∈ df → e_identity r = identity) →
     length (filter (λ r, e_aug r = "original") df) = 1%nat →
     length (generate_augmented_pairs df)
     = length (filter (λ r, e_aug r ≠ "original") df) ∧
     (length (generate_augmented_pairs df) + 1 = length df)%nat).
Proof.
  split.
  - intros i j l Hin. unfold generate_augmented_pairs in Hin.
    apply list_elem_of_In, in_concat in Hin as (ps & Hps & Hin).
    apply list_elem_of_In in Hin.
    apply list_elem_of_In, list_elem_of_fmap in Hps as (identity & -> & _).
    apply pairs_of_identity_elem in Hin
      as (-> & ri & rj & Hi & Hj & Hoi & Haj & Hii & Hij).
    split; [done|]. split; [intros ->; congruence|].
    exists ri, rj. split_and!; try done. congruence.
  - intros identity Hall Hone.
    assert (df ≠ []) as Hne by (intros ->; done).
    unfold generate_augmented_pairs, unique.
    rewrite (unique_from_constant identity).
    2:{ intros x (r & -> & Hr)%list_elem_of_fmap. by apply Hall. }
    rewrite bool_decide_eq_false_2 by apply not_elem_of_nil.
    destruct (map e_identity df) eqn:Em; [by destruct df|]. clear Em.
    simpl. rewrite app_nil_r. unfold pairs_of_identity. cbv zeta.
    rewrite (filter_all (λ ir : nat * EmbRow, e_identity ir.2 = identity)).
    2:{ intros [i r] Hir%elem_of_indexed. apply Hall.
        by eapply list_elem_of_lookup_2. }
    pose proof (indexed_filter_length (λ r, e_aug r = "original") df) as Ho.
    pose proof (indexed_filter_length (λ r, e_aug r ≠ "original") df) as Ha.
    cbv beta in Ho, Ha. rewrite Hone in Ho.
    destruct (filter (λ ir : nat * EmbRow, e_aug ir.2 = "original") (indexed df))
      as [|[o ro] rest]; [done|].
    rewrite length_map, Ha.
    pose proof (filter_app_complement (λ r, e_aug r = "original") df) as Hp.
    apply Permutation_length in Hp. rewrite length_app, Hone in Hp.
    split; lia.
Qed.

(** The table of one identity with its original and three augmented rows
    gives three pairs. *)
Lemma pairs_original_against_augmented_witness :
  length (generate_augmented_pairs one_identity) = 3%nat.
Proof.
  destruct (pairs_original_against_augmented one_identity) as [_ Hk].
  destruct (Hk "img001") as [Hlen _].
  - intros r Hr. unfold one_identity in Hr.
    repeat (apply elem_of_cons in Hr as [->|Hr]; [reflexivity|]).
    by apply elem_of_nil in Hr.
  - reflexivity.
  - rewrite Hlen. reflexivity.
Defined.

End TrialFacts.
